(** * PaddleSeg: interactive predictor factory, weight-hash tool,
  dataset file lists and checkpoint retention

  A shallow embedding of
  - [EISeg/eiseg/inference/predictor/__init__.py] ([get_predictor]),
  - [EISeg/tool/update_md5.py] (the hash-update script),
  - [paddleseg/datasets/dataset.py] ([Dataset.__init__]),
  - [contrib/Matting/core/train.py] (the checkpoint part of [train]),
  together with the predictor step of the design document, whose code
  lives outside the files above. *)

From Stdlib Require Import ZArith String Ascii List Lia.
From stdpp Require Import base option list strings pretty sorting gmap.

Local Open Scope string_scope.
Local Open Scope list_scope.

(** ** Python values, exceptions and results *)

Module Py.

(** The few Python values that travel through keyword dictionaries. *)
Inductive pyval : Type :=
  | PyNone
  | PyBool (b : bool)
  | PyInt (z : Z)
  | PyStr (s : string)
  | PyObj (id : nat).

(** Exceptions raised by the embedded code; [Foreign] stands for whatever
  a collaborator outside the embedded files raises. *)
Inductive exn : Type :=
  | NotImplementedError (msg : string)
  | ValueError (msg : string)
  | FileNotFoundError (msg : string)
  | TypeError (msg : string)
  | IsADirectoryError (path : string)
  | IndexError
  | ZeroDivisionError
  | InvalidCoordinate
  | NoOpError
  | Foreign (tag : string).

Inductive result (A : Type) : Type :=
  | Ok (a : A)
  | Raise (e : exn).
Arguments Ok {A} a.
Arguments Raise {A} e.

Definition is_Ok {A} (r : result A) : bool :=
  match r with Ok _ => true | Raise _ => false end.

Definition result_bind {A B} (r : result A) (k : A -> result B) : result B :=
  match r with
  | Ok a => k a
  | Raise e => Raise e
  end.

#[global] Instance result_ret : MRet result := fun _ a => Ok a.
#[global] Instance result_mbind : MBind result :=
  fun _ _ k r => result_bind r k.

(** A keyword dictionary. *)
Abbreviation kwargs := (gmap string pyval).

(** An argument with a default: [None] when the caller leaves it out. *)
Definition arg_or {A} (dflt : A) (passed : option A) : A :=
  match passed with
  | Some a => a
  | None => dflt
  end.

End Py.

Import Py.

(** ** [get_predictor] *)

Module Predictor.

Section GetPredictor.

(** The network, and the two collaborator classes [ZoomIn] and
    [BasePredictor] with their constructors; a constructor may raise. *)
Context {Net ZoomInT PredictorT : Type}.
Variable ZoomIn_init : kwargs -> result ZoomInT.
Variable BasePredictor_init :
  Net -> option ZoomInT -> bool -> kwargs -> result PredictorT.

(** Constructor calls, in the order they are made. *)
Inductive event : Type :=
  | NewZoomIn (kw : kwargs)
  | NewBasePredictor (net : Net) (zoom_in : option ZoomInT)
                   (with_flip : bool) (kw : kwargs).

(** Computations that log constructor calls and may raise. *)
Definition M (A : Type) : Type := (list event * result A)%type.

Definition ret {A} (a : A) : M A := ([], Ok a).
Definition raise {A} (e : exn) : M A := ([], Raise e).
Definition bind {A B} (m : M A) (k : A -> M B) : M B :=
  match m with
  | (log, Ok a) => let '(log', r) := k a in (log ++ log', r)
  | (log, Raise e) => (log, Raise e)
  end.

Notation "x <~ m ;; k" := (bind m (fun x => k))
  (at level 100, m at next level, right associativity).

Definition calls {A} (m : M A) : list event := fst m.
Definition outcome {A} (m : M A) : result A := snd m.

(** The call [ZoomIn] applied to the unpacked dictionary [kw]. *)
Definition new_ZoomIn (kw : kwargs) : M ZoomInT :=
  ([NewZoomIn kw], ZoomIn_init kw).

(** [BasePredictor(net, zoom_in=zoom_in, with_flip=with_flip)] with [kw]
    unpacked after the explicit keywords:
    a key of [kw] that repeats an explicit keyword is rejected by the
    call itself, before the constructor runs. *)
Definition new_BasePredictor (net : Net) (zoom_in : option ZoomInT)
    (with_flip : bool) (kw : kwargs) : M PredictorT :=
  if decide (is_Some (kw !! "zoom_in")) then
    raise (TypeError "got multiple values for keyword argument 'zoom_in'")
  else if decide (is_Some (kw !! "with_flip")) then
    raise (TypeError "got multiple values for keyword argument 'with_flip'")
  else
    ([NewBasePredictor net zoom_in with_flip kw],
     BasePredictor_init net zoom_in with_flip kw).

(** The defaults of the signature:
    [with_flip=True, zoom_in_params=dict(), predictor_params=None].
    For the two dictionary parameters the inner [option] is Python's
    [None]. *)
Definition with_flip_default : bool := true.
Definition zoom_in_params_default : option kwargs := Some ∅.
Definition predictor_params_default : option kwargs := None.

(** [ZoomIn] on the unpacked [zoom_in_params] if it [is not None],
    else [None]. *)
Definition make_zoom_in (zoom_in_params : option kwargs)
    : M (option ZoomInT) :=
  match zoom_in_params with
  | Some kw => z <~ new_ZoomIn kw ;; ret (Some z)
  | None => ret None
  end.

(** [predictor_params_ |= predictor_params]: the right operand wins. *)
Definition dict_ior (d other : kwargs) : kwargs := other ∪ d.

Definition get_predictor (net : Net) (brs_mode : string)
    (with_flip : option bool)
    (zoom_in_params : option (option kwargs))
    (predictor_params : option (option kwargs)) : M PredictorT :=
  let with_flip := arg_or with_flip_default with_flip in
  let zoom_in_params := arg_or zoom_in_params_default zoom_in_params in
  let predictor_params :=
    arg_or predictor_params_default predictor_params in
  let predictor_params_ : kwargs :=
    {[ "optimize_after_n_clicks" := PyInt 1 ]} in
  zoom_in <~ make_zoom_in zoom_in_params ;;
  if String.eqb brs_mode "NoBRS" then
    let predictor_params_ :=
      match predictor_params with
      | Some pp => dict_ior predictor_params_ pp
      | None => predictor_params_
      end in
    predictor <~ new_BasePredictor net zoom_in with_flip predictor_params_ ;;
    ret predictor
  else
    raise (NotImplementedError "Just support NoBRS mode").

(** The keyword dictionary handed to [BasePredictor]. *)
Definition merged_params (predictor_params : option (option kwargs))
    : kwargs :=
  match arg_or predictor_params_default predictor_params with
  | Some pp => dict_ior {[ "optimize_after_n_clicks" := PyInt 1 ]} pp
  | None => {[ "optimize_after_n_clicks" := PyInt 1 ]}
  end.

(** The value the caller's dictionary gives a key, if any. *)
Definition supplied (predictor_params : option (option kwargs))
    (key : string) : option pyval :=
  match arg_or predictor_params_default predictor_params with
  | Some pp => pp !! key
  | None => None
  end.

(** No key of the caller's dictionary repeats an explicit keyword. *)
Definition no_clash (predictor_params : option (option kwargs)) : Prop :=
  merged_params predictor_params !! "zoom_in" = None /\
  merged_params predictor_params !! "with_flip" = None.

End GetPredictor.

Arguments event : clear implicits.

(** A concrete instance: constructors that record their arguments, and a
  [ZoomIn] that knows only the key [target_size]. *)
Module Demo.
Record zoom := { zoom_kw : kwargs }.
Record predictor := {
  p_net : nat;
  p_zoom_in : option zoom;
  p_with_flip : bool;
  p_kw : kwargs
}.
Definition ZoomIn_init (kw : kwargs) : result zoom :=
  if decide (dom kw ⊆ ({[ "target_size" ]} : gset string))
  then Ok {| zoom_kw := kw |}
  else Raise (TypeError "unexpected keyword argument").
Definition BasePredictor_init (net : nat) (z : option zoom) (f : bool)
    (kw : kwargs) : result predictor :=
  Ok {| p_net := net; p_zoom_in := z; p_with_flip := f; p_kw := kw |}.
Definition run := get_predictor ZoomIn_init BasePredictor_init.
End Demo.

End Predictor.

(** ** Python string operations used by the embedded code

    A [string] stands for a Python [str] whose characters are code points
    below 256, one [ascii] per code point: the character [c] is the code
    point [nat_of_ascii c].  On these strings the operations below are
    Python's, white space and letter case included. *)

Module PyString.

Definition chars (s : string) : list ascii := list_ascii_of_string s.
Definition str (l : list ascii) : string := string_of_list_ascii l.

(** The double quote character, as a string. *)
Definition dquote : string := String "034"%char EmptyString.

(** [s.endswith(suf)] *)
Definition endswith (s suf : string) : bool :=
  bool_decide (chars suf `suffix_of` chars s).

(** The slice [s[:-n]] for [n > 0]. *)
Definition drop_end (n : nat) (s : string) : string :=
  str (take (length (chars s) - n) (chars s)).

(** [str.isspace] on one character: the white space of Unicode among the
    code points below 256, which is what [str.strip] removes.  These are
    the controls 9 to 13 and 28 to 31, the space, NEL (U+0085, 133) and the
    no-break space (U+00A0, 160). *)
Definition is_space (c : ascii) : bool :=
  match c with
  | "009" | "010" | "011" | "012" | "013"
  | "028" | "029" | "030" | "031" | " "
  | "133" | "160" => true
  | _ => false
  end%char.

Fixpoint lstrip (s : string) : string :=
  match s with
  | EmptyString => EmptyString
  | String c s' => if is_space c then lstrip s' else s
  end.

Fixpoint rstrip (s : string) : string :=
  match s with
  | EmptyString => EmptyString
  | String c s' =>
      match rstrip s' with
      | EmptyString => if is_space c then EmptyString else String c EmptyString
      | r => String c r
      end
  end.

(** [s.strip()] *)
Definition strip (s : string) : string := rstrip (lstrip s).

(** The upper-case letters among the code points below 256: A to Z
    (65 to 90) and the Latin-1 letters U+00C0 to U+00DE (192 to 222) but for
    the multiplication sign U+00D7 (215). *)
Definition is_upper (n : nat) : bool :=
  ((65 <=? n)%nat && (n <=? 90)%nat)
  || ((192 <=? n)%nat && (n <=? 222)%nat && negb (n =? 215)%nat).

(** [s.lower()]: each upper-case letter below 256 has its lower-case form
    32 code points further; every other character is kept. *)
Definition lower_char (c : ascii) : ascii :=
  let n := nat_of_ascii c in
  if is_upper n then ascii_of_nat (n + 32) else c.

Fixpoint lower (s : string) : string :=
  match s with
  | EmptyString => EmptyString
  | String c s' => String (lower_char c) (lower s')
  end.

(** The scan of [s.split(sep)] for a non-empty [sep]: occurrences of [sep]
    are found from the left and do not overlap; [skip] counts the characters
    of an occurrence still to be passed over, [cur] is the field being
    read. *)
Fixpoint split_scan (sep : string) (s : string) (skip : nat) (cur : string)
    : list string :=
  match s with
  | EmptyString => [cur]
  | String c s' =>
      match skip with
      | S k => split_scan sep s' k cur
      | O =>
          if String.prefix sep s
          then cur :: split_scan sep s' (String.length sep - 1) EmptyString
          else split_scan sep s' 0 (cur +:+ String c EmptyString)
      end
  end.

(** [s.split(sep)]; an empty separator is refused. *)
Definition split (s sep : string) : result (list string) :=
  if String.eqb sep EmptyString then Raise (ValueError "empty separator")
  else Ok (split_scan sep s 0 EmptyString).

(** [os.path.join(a, b)] of [posixpath]. *)
Definition path_join (a b : string) : string :=
  if String.prefix "/" b then b
  else if String.eqb a EmptyString || endswith a "/" then a +:+ b
  else a +:+ "/" +:+ b.

(** What [path_join] puts before a relative name. *)
Definition join_prefix (a : string) : string :=
  if String.eqb a EmptyString || endswith a "/" then a else a +:+ "/".

(** The components of a relative path. *)
Fixpoint components (s : string) : list string :=
  match s with
  | EmptyString => [EmptyString]
  | String c s' =>
      if Ascii.eqb c "/" then EmptyString :: components s'
      else match components s' with
           | x :: xs => String c x :: xs
           | [] => [String c EmptyString]
           end
  end.

(** A string of whitespace only (the empty string included). *)
Definition is_blank (s : string) : bool := forallb is_space (chars s).

(** A string without whitespace. *)
Definition no_space (s : string) : bool :=
  forallb (fun c => negb (is_space c)) (chars s).

(** The one-character string. *)
Definition char (c : ascii) : string := String c EmptyString.

End PyString.

(** ** [update_md5.py] *)

Module UpdateMd5.

Import PyString.

(** What a path names: a regular file with its bytes, or a directory. *)
Inductive node : Type :=
  | File (content : list Byte.byte)
  | Dir.

(** The directory tree below the working directory, keyed by relative
    path ([d/f] for the entry [f] of the sub-directory [d]). *)
Abbreviation tree := (gmap string node).

Section Script.

(** [hashlib.md5(bytes).hexdigest()] *)
Variable md5_hexdigest : list Byte.byte -> string.

Definition ext : string := ".pdparams".

(** [Path.read_bytes] *)
Definition read_bytes (t : tree) (p : string) : result (list Byte.byte) :=
  match t !! p with
  | Some (File b) => Ok b
  | Some Dir => Raise (IsADirectoryError p)
  | None => Raise (FileNotFoundError p)
  end.

(** [Path.write_text]: creates or truncates the regular file [p]; the
    parent directory is taken to exist, as it does for the sidecar of a path
    the scan has yielded. *)
Definition write_text (t : tree) (p : string) (text : string) : result tree :=
  match t !! p with
  | Some Dir => Raise (IsADirectoryError p)
  | _ => Ok (<[ p := File (String.list_byte_of_string text) ]> t)
  end.

(** A path matches the pattern [*/*.pdparams]: one directory component,
    then a name that ends with the extension. *)
Definition glob_match (p : string) : bool :=
  match components p with
  | [d; f] => negb (String.eqb d EmptyString) && endswith f ext
  | _ => false
  end.

(** [models_dir.glob("*/*.pdparams")]: the matching entries, files and
    directories alike, in the order the directory scan yields them. *)
Definition glob (t : tree) : list string :=
  filter (fun p => glob_match p = true) (fst <$> map_to_list t).

Definition md5_path_of (model_path : string) : string :=
  drop_end (String.length ext) model_path +:+ ".md5".

(** The body of the loop. *)
Definition body (t : tree) (model_path : string) : result tree :=
  match read_bytes t model_path with
  | Raise e => Raise e
  | Ok bytes =>
      let md5 := md5_hexdigest bytes in
      let md5_path := md5_path_of model_path in
      write_text t md5_path md5
  end.

Fixpoint for_each (paths : list string) (t : tree) : result tree :=
  match paths with
  | [] => Ok t
  | model_path :: rest =>
      match body t model_path with
      | Raise e => Raise e
      | Ok t' => for_each rest t'
      end
  end.

Definition main (t : tree) : result tree := for_each (glob t) t.

(** The entries the loop visits. *)
Definition is_weight (t : tree) (p : string) : Prop :=
  glob_match p = true /\ is_Some (t !! p).

Definition is_dir (t : tree) (p : string) : bool :=
  match t !! p with
  | Some Dir => true
  | _ => false
  end.

(** No entry the loop visits is a directory, and neither is the path of
    any of their sidecars. *)
Definition no_dir_in_the_way (t : tree) : bool :=
  forallb (fun p => negb (is_dir t p) && negb (is_dir t (md5_path_of p)))
          (glob t).

End Script.

(** A models directory with one weight file. *)
Definition demo_tree : tree :=
  <[ "m/x.pdparams" := File [Byte.x01; Byte.x02] ]>
    (<[ "m" := Dir ]> (<[ "m/notes.txt" := File [] ]> ∅)).

(** The same with a directory whose name matches the pattern, and with a
    weight file directly in the models directory. *)
Definition demo_tree_dir : tree :=
  <[ "m/old.pdparams" := Dir ]> demo_tree.
Definition demo_tree_top : tree :=
  <[ "top.pdparams" := File [Byte.x03] ]> demo_tree.

Definition demo_md5 (b : list Byte.byte) : string :=
  match b with
  | [] => "d41d8cd98f00b204e9800998ecf8427e"
  | _ => "0cb988d042a7f28dd5fe2b55b3f5ac7a"
  end.

End UpdateMd5.

(** ** [Dataset.__init__] *)

Module Dataset.

Import PyString.

Section Init.

(** The collaborators: [Compose] of [paddleseg.transforms] (its result is
    tested against [None] by the constructor), [os.path.exists], and reading
    the lines of a text file. *)
Context {Transforms Composed : Type}.
Variable Compose : Transforms -> result (option Composed).
Variable path_exists : string -> bool.
Variable read_lines : string -> result (list string).

Record t : Type := {
  dataset_root : string;
  transforms : Composed;
  file_list : list (string * option string);
  mode : string;
  num_classes : Z;
  ignore_index : Z;
  edge : bool
}.

Definition mode_error (mode : string) : exn :=
  ValueError ("mode should be 'train', 'val' or 'test', but got "
              +:+ mode +:+ ".").

Definition format_error (separator : string) : exn :=
  ValueError ("File list format incorrect! In training or evaluation task it should be image_name"
              +:+ separator +:+ "label_name\n").

(** [items[i]] *)
Definition item (i : nat) (items : list string) : result string :=
  match items !! i with
  | Some x => Ok x
  | None => Raise IndexError
  end.

(** The body of the loop over the lines of the file list: the entry that is
    appended to [file_list]. *)
Definition parse_line (dataset_root separator mode line : string)
    : result (string * option string) :=
  items ← split (strip line) separator;
  if negb (length items =? 2)%nat then
    if bool_decide (mode ∈ ["train"; "val"]) then
      Raise (format_error separator)
    else
      i0 ← item 0 items;
      Ok (path_join dataset_root i0, None)
  else
    i0 ← item 0 items;
    i1 ← item 1 items;
    Ok (path_join dataset_root i0, Some (path_join dataset_root i1)).

Fixpoint read_file_list (dataset_root separator mode : string)
    (lines : list string) (file_list : list (string * option string))
    : result (list (string * option string)) :=
  match lines with
  | [] => Ok file_list
  | line :: rest =>
      entry ← parse_line dataset_root separator mode line;
      read_file_list dataset_root separator mode rest (file_list ++ [entry])
  end.

(** The path of the list a mode needs: absent is a [ValueError], not on
    disk a [FileNotFoundError]. *)
Definition required_path (which : string) (path : option string)
    : result string :=
  match path with
  | None =>
      Raise (ValueError ("When `mode` is " +:+ dquote +:+ which +:+ dquote
                         +:+ ", `"
                         +:+ which +:+ "_path` is necessary, but it is None."))
  | Some p =>
      if negb (path_exists p)
      then Raise (FileNotFoundError ("`" +:+ which +:+ "_path` is not found: "
                                     +:+ p))
      else Ok p
  end.

(** [Dataset.__init__]; the defaults of the signature are [mode='train'],
    no list paths, [separator=' '], [ignore_index=255], [edge=False]. *)
Definition init (transforms_ : Transforms) (dataset_root_ : string)
    (num_classes_ : Z) (mode_ : string)
    (train_path val_path test_path : option string)
    (separator : string) (ignore_index_ : Z) (edge_ : bool) : result t :=
  composed ← Compose transforms_;
  let mode_ := lower mode_ in
  if negb (bool_decide (lower mode_ ∈ ["train"; "val"; "test"])) then
    Raise (mode_error mode_)
  else
    match composed with
    | None => Raise (ValueError "`transforms` is necessary, but it is None.")
    | Some tr =>
        if negb (path_exists dataset_root_) then
          Raise (FileNotFoundError ("there is not `dataset_root`: "
                                    +:+ dataset_root_ +:+ "."))
        else
          file_path ←
            (if String.eqb mode_ "train" then required_path "train" train_path
             else if String.eqb mode_ "val" then required_path "val" val_path
             else required_path "test" test_path);
          lines ← read_lines file_path;
          entries ← read_file_list dataset_root_ separator mode_ lines [];
          Ok {| dataset_root := dataset_root_;
                transforms := tr;
                file_list := entries;
                mode := mode_;
                num_classes := num_classes_;
                ignore_index := ignore_index_;
                edge := edge_ |}
    end.

(** The list path the (lowered) mode selects. *)
Definition selected_path (mode_ : string)
    (train_path val_path test_path : option string) : option string :=
  if String.eqb mode_ "train" then train_path
  else if String.eqb mode_ "val" then val_path
  else test_path.

(** The checks before the file list is read all pass: the transforms
    compose to something, the root and the selected list exist, and the
    list reads as [lines]. *)
Definition reaches_file_list (transforms_ : Transforms)
    (dataset_root_ mode_ : string)
    (train_path val_path test_path : option string)
    (tr : Composed) (lines : list string) : Prop :=
  Compose transforms_ = Ok (Some tr) /\
  path_exists dataset_root_ = true /\
  exists p, selected_path (lower mode_) train_path val_path test_path = Some p /\
            path_exists p = true /\
            read_lines p = Ok lines.

(** A line that splits, but not into exactly two fields. *)
Definition malformed (separator line : string) : Prop :=
  exists items, split (strip line) separator = Ok items /\ length items <> 2%nat.

(** [Dataset.__len__] *)
Definition len (ds : t) : nat := length (file_list ds).

(** The entry a test-mode list gets for a line. *)
Definition test_entry (dataset_root_ separator line : string)
    : result (string * option string) :=
  parse_line dataset_root_ separator "test" line.

End Init.

(** ** [Dataset.__getitem__] *)

(** [l[idx]] on a Python list: a negative index counts from the end, an
    index out of range is an [IndexError]. *)
Definition py_index {A} (l : list A) (idx : Z) : result A :=
  let n := Z.of_nat (length l) in
  let pos := if (idx <? 0)%Z then (n + idx)%Z else idx in
  if (0 <=? pos)%Z && (pos <? n)%Z then
    match l !! Z.to_nat pos with
    | Some x => Ok x
    | None => Raise IndexError
    end
  else Raise IndexError.

Section GetItem.

(** The collaborators: calling the composed transforms on an image path and
    an optional label path, [im[np.newaxis, ...]], opening a label image as
    an array, [label[np.newaxis, :, :]], and [F.mask_to_binary_edge]. *)
Context {Composed Im Lbl Edge : Type}.
Variable call_transforms :
  Composed -> string -> option string -> result (Im * option Lbl).
Variable im_newaxis : Im -> Im.
Variable open_label : option string -> result Lbl.
Variable lbl_newaxis : Lbl -> Lbl.
Variable mask_to_binary_edge : option Lbl -> Z -> Z -> result Edge.

(** What [__getitem__] returns, by mode. *)
Inductive sample : Type :=
  | TestItem (im : Im) (image_path : string)
  | ValItem (im : Im) (label : Lbl)
  | TrainItem (im : Im) (label : option Lbl)
  | TrainEdgeItem (im : Im) (label : option Lbl) (edge_mask : Edge).

Definition getitem (ds : t (Composed := Composed)) (idx : Z) : result sample :=
  entry ← py_index (file_list ds) idx;
  let '(image_path, label_path) := entry in
  if String.eqb (mode ds) "test" then
    r ← call_transforms (transforms ds) image_path None;
    Ok (TestItem (im_newaxis (fst r)) image_path)
  else if String.eqb (mode ds) "val" then
    r ← call_transforms (transforms ds) image_path None;
    label ← open_label label_path;
    Ok (ValItem (fst r) (lbl_newaxis label))
  else
    r ← call_transforms (transforms ds) image_path label_path;
    if edge ds then
      edge_mask ← mask_to_binary_edge (snd r) 2 (num_classes ds);
      Ok (TrainEdgeItem (fst r) (snd r) edge_mask)
    else Ok (TrainItem (fst r) (snd r)).

End GetItem.

(** A small world: any transform list composes, and two list files exist
    under [data]. *)
Module Demo.
Definition Compose (n : nat) : result (option nat) := Ok (Some n).
Definition path_exists (p : string) : bool :=
  bool_decide (p ∈ ["data"; "data/train.txt"; "data/test.txt"]).
Definition read_lines (p : string) : result (list string) :=
  if String.eqb p "data/train.txt" then
    Ok ["a.jpg a.png"; "b.jpg"]
  else if String.eqb p "data/test.txt" then
    Ok ["a.jpg a.png"; "b.jpg"; "c.jpg c.png extra"]
  else Raise (FileNotFoundError p).
Definition run := init Compose path_exists read_lines.
End Demo.

(** A second small world, with lines as a file yields them, line end
    included: a val list of two pairs and a list that ends in a blank
    line. *)
Module Demo2.
Definition nl : string := String "010"%char EmptyString.
Definition Compose (n : nat) : result (option nat) := Ok (Some n).
Definition path_exists (p : string) : bool :=
  bool_decide (p ∈ ["data"; "data/val.txt"; "data/blank.txt"]).
Definition read_lines (p : string) : result (list string) :=
  if String.eqb p "data/val.txt" then
    Ok ["a.jpg a.png" +:+ nl; "b.jpg b.png" +:+ nl]
  else if String.eqb p "data/blank.txt" then
    Ok ["a.jpg a.png" +:+ nl; nl]
  else Raise (FileNotFoundError p).
Definition run := init Compose path_exists read_lines.
End Demo2.

(** Collaborators for [__getitem__] that hand back the paths they are
    given: images and labels are their paths. *)
Module DemoItems.
Definition call_transforms (c : nat) (image_path : string)
    (label_path : option string) : result (string * option string) :=
  Ok (image_path, label_path).
Definition open_label (label_path : option string) : result string :=
  match label_path with
  | Some p => Ok p
  | None => Raise (Foreign "AttributeError")
  end.
Definition mask_to_binary_edge (label : option string) (radius classes : Z)
    : result nat := Ok 0%nat.
Definition fetch :=
  getitem call_transforms (fun im => im) open_label (fun l => l)
          mask_to_binary_edge.
End DemoItems.

End Dataset.

(** ** The checkpoint part of [train] *)

Module Train.

Import PyString.

(** The arguments of [train] and the facts of its environment that decide
    when a checkpoint is written. *)
Record config : Type := {
  save_dir : string;
  iters : Z;
  save_interval : Z;
  log_iters : Z;
  local_rank : Z;
  keep_checkpoint_max : Z;
  has_val_dataset : bool;
  batches : nat                (* [len(loader)] *)
}.

(** The variables of the loop that matter for checkpoints, and the
    directories on disk ([save_dir], the checkpoint directories and
    [best_model]; what lies inside them is not tracked). *)
Record state : Type := {
  iter : Z;
  save_models : list string;   (* the deque, oldest entry first *)
  dirs : gset string;
  eval_begin_iters : option Z
}.

Section Loop.

(** Whether the evaluation at an iteration improves on [best_sad]. *)
Variable improves : Z -> bool.

Variable cfg : config.

(** [a % b] on integers. *)
Definition py_mod (a b : Z) : result Z :=
  if Z.eqb b 0 then Raise ZeroDivisionError else Ok (a mod b)%Z.

(** [os.path.join(save_dir, f"iter_{iter}")] *)
Definition current_save_dir (i : Z) : string :=
  path_join (save_dir cfg) ("iter_" +:+ pretty i).

Definition best_model_dir : string := path_join (save_dir cfg) "best_model".

(** [os.makedirs(d)] unless [os.path.isdir(d)]. *)
Definition ensure_dir (d : string) (ds : gset string) : gset string :=
  if bool_decide (d ∈ ds) then ds else ds ∪ {[ d ]}.

(** [shutil.rmtree(d)] *)
Definition rmtree (d : string) (ds : gset string) : result (gset string) :=
  if bool_decide (d ∈ ds) then Ok (ds ∖ {[ d ]})
  else Raise (FileNotFoundError d).

(** The block under [# save model], once its condition holds. *)
Definition save_checkpoint (st : state) : result state :=
  let current := current_save_dir (iter st) in
  let ds := ensure_dir current (dirs st) in
  let models := save_models st ++ [current] in
  if (keep_checkpoint_max cfg <? Z.of_nat (length models))%Z
     && (0 <? keep_checkpoint_max cfg)%Z
  then
    match models with
    | [] => Raise IndexError
    | model_to_remove :: rest =>
        ds' ← rmtree model_to_remove ds;
        Ok {| iter := iter st; save_models := rest; dirs := ds';
              eval_begin_iters := eval_begin_iters st |}
    end
  else
    Ok {| iter := iter st; save_models := models; dirs := ds;
          eval_begin_iters := eval_begin_iters st |}.

(** One pass through the body of the [for] loop, after [iter += 1] and the
    [break] test. *)
Definition iteration (st : state) : result state :=
  _ ← py_mod (iter st) (log_iters cfg);
  m ← py_mod (iter st) (save_interval cfg);
  let due := Z.eqb m 0 || Z.eqb (iter st) (iters cfg) in
  st1 ← (if due && Z.eqb (local_rank cfg) 0 then save_checkpoint st
         else Ok st);
  let begin_ :=
    match eval_begin_iters st1 with
    | None => (iters cfg / 2)%Z
    | Some b => b
    end in
  let evaluated :=
    due && has_val_dataset cfg && Z.eqb (local_rank cfg) 0
    && (begin_ <=? iter st1)%Z in
  Ok {| iter := iter st1;
        save_models := save_models st1;
        dirs := if evaluated && improves (iter st1)
                then dirs st1 ∪ {[ best_model_dir ]} else dirs st1;
        eval_begin_iters := Some begin_ |}.

(** [iter += 1] *)
Definition tick (st : state) : state :=
  {| iter := iter st + 1; save_models := save_models st; dirs := dirs st;
     eval_begin_iters := eval_begin_iters st |}.

(** [for data in loader], over the [n] batches still to come. *)
Fixpoint for_loader (n : nat) (st : state) : result state :=
  match n with
  | O => Ok st
  | S n' =>
      let st' := tick st in
      if (iters cfg <? iter st')%Z then Ok st'
      else st'' ← iteration st'; for_loader n' st''
  end.

(** [while iter < iters]; [None] when the fuel runs out. *)
Fixpoint while_loop (fuel : nat) (st : state) : option (result state) :=
  if (iter st <? iters cfg)%Z then
    match fuel with
    | O => None
    | S fuel' =>
        match for_loader (batches cfg) st with
        | Raise e => Some (Raise e)
        | Ok st' => while_loop fuel' st'
        end
    end
  else Some (Ok st).

(** The state when the loop is entered: [save_dir] has been created and the
    deque is empty. *)
Definition entry (start_iter : Z) (disk : gset string)
    (eval_begin : option Z) : state :=
  {| iter := start_iter; save_models := [];
     dirs := ensure_dir (save_dir cfg) disk;
     eval_begin_iters := eval_begin |}.

Definition train (start_iter : Z) (disk : gset string)
    (eval_begin : option Z) (fuel : nat) : option (result state) :=
  while_loop fuel (entry start_iter disk eval_begin).

(** The states the loop passes through, one per completed pass of the
    body. *)
Inductive reachable (s0 : state) : state -> Prop :=
  | reach_entry : reachable s0 s0
  | reach_pass st st' :
      reachable s0 st ->
      (iter (tick st) <= iters cfg)%Z ->
      iteration (tick st) = Ok st' ->
      reachable s0 st'.

(** The states the loop functions return: the reachable ones, up to the
    last increment of [iter] before a [break]. *)
Definition settled (s0 st : state) : Prop :=
  exists st0, reachable s0 st0 /\
    (st = st0 \/ (st = tick st0 /\ (iters cfg < iter st)%Z)).

(** A periodic checkpoint directory of this [save_dir]. *)
Definition is_checkpoint_dir (d : string) : Prop :=
  exists i : Z, d = current_save_dir i.

(** The deque respects the limit. *)
Definition within_limit (st : state) : Prop :=
  (Z.of_nat (length (save_models st)) <= keep_checkpoint_max cfg)%Z.

(** The periodic checkpoint directories on disk are exactly those of the
    deque, which has no repetition and holds directories of iterations
    after [start_iter] and up to the current one. *)
Record retained (start_iter : Z) (st : state) : Prop := {
  ret_start : (start_iter <= iter st)%Z;
  ret_disk : forall d, d ∈ dirs st -> is_checkpoint_dir d -> d ∈ save_models st;
  ret_exist : forall d, d ∈ save_models st -> d ∈ dirs st;
  ret_nodup : NoDup (save_models st);
  ret_iters : forall d, d ∈ save_models st ->
    exists i, (start_iter < i <= iter st)%Z /\ d = current_save_dir i
}.

(** A save is due at iteration [i]: the condition of the save block. *)
Definition save_due (i : Z) : Prop :=
  (i mod save_interval cfg = 0)%Z \/ i = iters cfg.

(** The deque lists the directories of strictly increasing iterations,
    each after [start_iter], not after the current one, and one at which a
    save was due. *)
Definition oldest_first (start_iter : Z) (st : state) : Prop :=
  exists idx : list Z,
    save_models st = current_save_dir <$> idx /\
    StronglySorted Z.lt idx /\
    Forall (fun i => (start_iter < i <= iter st)%Z /\ save_due i) idx.

(** No periodic checkpoint directory of this [save_dir] is on disk. *)
Definition fresh (disk : gset string) : Prop :=
  forall d, d ∈ disk -> ~ is_checkpoint_dir d.

End Loop.

(** Seven iterations, a checkpoint every second one, two kept. *)
Definition demo_cfg : config :=
  {| save_dir := "output"; iters := 7; save_interval := 2; log_iters := 10;
     local_rank := 0; keep_checkpoint_max := 2; has_val_dataset := true;
     batches := 3 |}.

Definition demo_improves (i : Z) : bool := Z.even i.

(** Variations: a loader without batches, a zero [save_interval], a rank
    other than 0, and no limit on the checkpoints kept. *)
Definition demo_cfg_empty : config :=
  {| save_dir := "output"; iters := 7; save_interval := 2; log_iters := 10;
     local_rank := 0; keep_checkpoint_max := 2; has_val_dataset := true;
     batches := 0 |}.
Definition demo_cfg_zero : config :=
  {| save_dir := "output"; iters := 7; save_interval := 0; log_iters := 10;
     local_rank := 0; keep_checkpoint_max := 2; has_val_dataset := true;
     batches := 3 |}.
Definition demo_cfg_rank1 : config :=
  {| save_dir := "output"; iters := 7; save_interval := 2; log_iters := 10;
     local_rank := 1; keep_checkpoint_max := 2; has_val_dataset := true;
     batches := 3 |}.
Definition demo_cfg_nolimit : config :=
  {| save_dir := "output"; iters := 7; save_interval := 2; log_iters := 10;
     local_rank := 0; keep_checkpoint_max := 0; has_val_dataset := true;
     batches := 3 |}.

(** On rank 1, after the passes for iterations 1 and 2. *)
Definition demo_state_rank1 : state :=
  {| iter := 2; save_models := []; dirs := {[ "output" ]};
     eval_begin_iters := Some 3%Z |}.

(** Without a limit, after the passes for iterations 5 and 6 that follow
    [demo_state] below. *)
Definition demo_state_nolimit : state :=
  {| iter := 6;
     save_models := ["output/iter_2"; "output/iter_4"; "output/iter_6"];
     dirs := {[ "output"; "output/iter_2"; "output/iter_4";
                "output/iter_6"; "output/best_model" ]};
     eval_begin_iters := Some 3%Z |}.

(** The state after the passes for iterations 1 to 4. *)
Definition demo_state : state :=
  {| iter := 4;
     save_models := ["output/iter_2"; "output/iter_4"];
     dirs := {[ "output"; "output/iter_2"; "output/iter_4";
                "output/best_model" ]};
     eval_begin_iters := Some 3%Z |}.

(** The states after the passes for iterations 5 and 6: no checkpoint is
    due at 5; the one of 6 is the third, and [output/iter_2] goes. *)
Definition demo_state5 : state :=
  {| iter := 5;
     save_models := ["output/iter_2"; "output/iter_4"];
     dirs := {[ "output"; "output/iter_2"; "output/iter_4";
                "output/best_model" ]};
     eval_begin_iters := Some 3%Z |}.
Definition demo_state6 : state :=
  {| iter := 6;
     save_models := ["output/iter_4"; "output/iter_6"];
     dirs := {[ "output"; "output/iter_4"; "output/iter_6";
                "output/best_model" ]};
     eval_begin_iters := Some 3%Z |}.

End Train.

(** ** The predictor of the design document *)

Module Step.

(** Modelled from the spec: [ClickPoint], "(row, col, is_positive,
    order_index)" (the predictor classes of [inference.predictor] are not
    among the embedded files). *)
Record ClickPoint : Type := {
  row : Z;
  col : Z;
  is_positive : bool;
  order_index : nat
}.

Section Predictor.

(** The external capabilities, "function contracts" in the words of the
    design document: images, masks and zoom states; the shape of an image;
    the Zoom-In Transform, which from the cached zoom state, the image and
    the accumulated clicks gives the zoom state to use, the cached one or a
    recomputed one, and [None] when zoom-in is disabled; the crop of an
    image; the Inference Adapter, which may fail; and the compositing of a
    crop-space result onto the full-image canvas. *)
Context {Image Mask ZoomState : Type}.
Variable image_shape : Image -> Z * Z.
Variable zoom_transform :
  option ZoomState -> Image -> list ClickPoint -> option ZoomState.
Variable crop_image : Image -> option ZoomState -> Image.
Variable adapter_run :
  Image -> list ClickPoint -> option Mask -> result Mask.
Variable composite : option ZoomState -> Mask -> option Mask -> Mask.

(** Modelled from the spec: [PredictionState], "(previous_mask,
    click_count_since_last_full_update)". *)
Record PredictionState : Type := {
  previous_mask : option Mask;
  click_count_since_last_full_update : nat
}.

(** Modelled from the spec: the Predictor, which "owns one ClickSet, one
    ZoomState and one PredictionState"; no image is the state [Idle], an
    image without clicks [Ready], an image with clicks [Active]. *)
Record Predictor : Type := {
  image : option Image;
  click_set : list ClickPoint;
  zoom_state : option ZoomState;
  prediction : PredictionState
}.

Definition fresh_prediction : PredictionState :=
  {| previous_mask := None; click_count_since_last_full_update := 0 |}.

(** Modelled from the spec: [set_image], "any state -> Ready; clears
    ClickSet, ZoomState, PredictionState". *)
Definition set_image (p : Predictor) (img : Image) : Predictor :=
  {| image := Some img; click_set := []; zoom_state := None;
     prediction := fresh_prediction |}.

(** Modelled from the spec: [reset], "clears all per-session state, keeps
    the loaded image". *)
Definition reset (p : Predictor) : Predictor :=
  {| image := image p; click_set := []; zoom_state := None;
     prediction := fresh_prediction |}.

Definition in_bounds (img : Image) (r c : Z) : bool :=
  let '(rows, cols) := image_shape img in
  (0 <=? r)%Z && (r <? rows)%Z && (0 <=? c)%Z && (c <? cols)%Z.

(** The click a call of [add_click] appends: "a new ClickPoint with the
    next order_index". *)
Definition next_click (p : Predictor) (r c : Z) (positive : bool)
    : ClickPoint :=
  {| row := r; col := c; is_positive := positive;
     order_index := length (click_set p) |}.

(** The call of the Inference Adapter that [add_click] makes in the state
    [p] for a click within the bounds of the image [img]: the crop of the
    zoom state the Zoom-In Transform gives, "the accumulated click state
    and the previous mask". *)
Definition adapter_call (p : Predictor) (img : Image) (r c : Z)
    (positive : bool) : result Mask :=
  let clicks := click_set p ++ [next_click p r c positive] in
  adapter_run (crop_image img (zoom_transform (zoom_state p) img clicks))
              clicks (previous_mask (prediction p)).

(** Modelled from the spec: [add_click(row, col, is_positive)].  The click
    is appended, the zoom-in transform and the Inference Adapter are called
    with the accumulated clicks and the previous mask, the result is
    composited and stored.  The state is replaced only when the step
    completes: "a step either fully completes and updates state, or state
    is unchanged".  Without an image no coordinate is within bounds. *)
Definition add_click (p : Predictor) (r c : Z) (positive : bool)
    : result Mask * Predictor :=
  match image p with
  | None => (Raise InvalidCoordinate, p)
  | Some img =>
      if negb (in_bounds img r c) then (Raise InvalidCoordinate, p)
      else
        let clicks := click_set p ++ [next_click p r c positive] in
        let z := zoom_transform (zoom_state p) img clicks in
        let prior := previous_mask (prediction p) in
        match adapter_call p img r c positive with
        | Raise e => (Raise e, p)
        | Ok prob =>
            let mask := composite z prob prior in
            (Ok mask,
             {| image := Some img; click_set := clicks; zoom_state := z;
                prediction :=
                  {| previous_mask := Some mask;
                     click_count_since_last_full_update :=
                       S (click_count_since_last_full_update (prediction p))
                  |} |})
        end
  end.

(** Replaying clicks from a state, stopping at the first failure. *)
Fixpoint replay (clicks : list ClickPoint) (p : Predictor) : result Predictor :=
  match clicks with
  | [] => Ok p
  | c :: rest =>
      match add_click p (row c) (col c) (is_positive c) with
      | (Ok _, p') => replay rest p'
      | (Raise e, _) => Raise e
      end
  end.

(** Modelled from the spec: [undo_click], "removes the most recent
    ClickPoint and re-derives the mask by replaying all remaining clicks
    from scratch"; "fails with NoOpError if ClickSet is empty". *)
Definition undo_click (p : Predictor) : result (option Mask) * Predictor :=
  match click_set p with
  | [] => (Raise NoOpError, p)
  | _ :: _ =>
      match replay (removelast (click_set p)) (reset p) with
      | Raise e => (Raise e, p)
      | Ok p' => (Ok (previous_mask (prediction p')), p')
      end
  end.

(** The interactive steps. *)
Inductive step : Type :=
  | AddClick (r c : Z) (positive : bool)
  | UndoClick.

Definition run_step (s : step) (p : Predictor)
    : result (option Mask) * Predictor :=
  match s with
  | AddClick r c positive =>
      match add_click p r c positive with
      | (Ok m, p') => (Ok (Some m), p')
      | (Raise e, p') => (Raise e, p')
      end
  | UndoClick => undo_click p
  end.

(** The step calls the Inference Adapter at least once: a click within the
    bounds of the loaded image, or an undo that leaves clicks to replay,
    all of them within bounds. *)
Definition invokes_adapter (s : step) (p : Predictor) : Prop :=
  match s, image p with
  | AddClick r c _, Some img => in_bounds img r c = true
  | UndoClick, Some img =>
      removelast (click_set p) <> [] /\
      forall c, c ∈ removelast (click_set p) ->
                in_bounds img (row c) (col c) = true
  | _, None => False
  end.

End Predictor.

(** A predictor over images given by their shape, with masks numbered, no
    zoom-in, and an Inference Adapter that fails on the call with two
    clicks and on no other. *)
Module Demo.
Definition failure : exn := Foreign "InferenceFailure".
Definition adapter_run (img : Z * Z) (clicks : list ClickPoint)
    (prior : option nat) : result nat :=
  if (length clicks =? 2)%nat then Raise failure else Ok (length clicks).
Definition zoom_transform (cached : option unit) (img : Z * Z)
    (clicks : list ClickPoint) : option unit := None.
Definition run :=
  run_step (fun img : Z * Z => img) zoom_transform (fun img _ => img)
           adapter_run (fun _ (m : nat) _ => m).
Definition click (r c : Z) (positive : bool) (i : nat) : ClickPoint :=
  {| row := r; col := c; is_positive := positive; order_index := i |}.
(** One click made, and three clicks made. *)
Definition active : Predictor (Image := Z * Z) (Mask := nat) (ZoomState := unit) :=
  {| image := Some (100, 100)%Z;
     click_set := [click 50 50 true 0];
     zoom_state := None;
     prediction := {| previous_mask := Some 5%nat;
                      click_count_since_last_full_update := 1 |} |}.
Definition active3 : Predictor (Image := Z * Z) (Mask := nat) (ZoomState := unit) :=
  {| image := Some (100, 100)%Z;
     click_set := [click 50 50 true 0; click 20 30 false 1;
                   click 60 40 true 2];
     zoom_state := None;
     prediction := {| previous_mask := Some 9%nat;
                      click_count_since_last_full_update := 3 |} |}.
End Demo.

End Step.

(** * Properties *)

(** ** [get_predictor] *)

Section GetPredictorFacts.

Import Predictor.

Context {Net ZoomInT PredictorT : Type}.
Variable ZoomIn_init : kwargs -> result ZoomInT.
Variable BasePredictor_init :
  Net -> option ZoomInT -> bool -> kwargs -> result PredictorT.

Local Abbreviation gp := (get_predictor ZoomIn_init BasePredictor_init).
Local Abbreviation mk_zoom := (make_zoom_in (Net := Net) ZoomIn_init).
Local Abbreviation new_bp := (new_BasePredictor BasePredictor_init).
Local Abbreviation ev := (event Net ZoomInT).

(** What the constructor call does once no key clashes. *)
Lemma new_BasePredictor_ok net (z : option ZoomInT) f (kw : kwargs) :
  kw !! "zoom_in" = None -> kw !! "with_flip" = None ->
  new_bp net z f kw =
    ([NewBasePredictor net z f kw], BasePredictor_init net z f kw).
Proof.
  intros Hz Hf. unfold new_BasePredictor.
  destruct (decide (is_Some (kw !! "zoom_in"))) as [[v Hv]|_]; [congruence|].
  destruct (decide (is_Some (kw !! "with_flip"))) as [[v Hv]|_]; [congruence|].
  reflexivity.
Qed.

(** The constructor call logs at most itself, with the arguments given. *)
Lemma new_BasePredictor_calls net (z : option ZoomInT) f (kw : kwargs) (e : ev) :
  e ∈ calls (new_bp net z f kw) -> e = NewBasePredictor net z f kw.
Proof.
  unfold new_BasePredictor, calls.
  repeat destruct (decide _); simpl; intros He.
  - inversion He.
  - inversion He.
  - apply list_elem_of_singleton in He. exact He.
Qed.

(** The three shapes of [make_zoom_in]. *)
Lemma make_zoom_in_cases (zp : option kwargs) :
  (zp = None /\ mk_zoom zp = ([], Ok None)) \/
  (exists kw z, zp = Some kw /\ ZoomIn_init kw = Ok z /\
                mk_zoom zp = ([NewZoomIn kw], Ok (Some z))) \/
  (exists kw e, zp = Some kw /\ ZoomIn_init kw = Raise e /\
                mk_zoom zp = ([NewZoomIn kw], Raise e)).
Proof.
  destruct zp as [kw|]; [|left; split; reflexivity].
  right. unfold make_zoom_in, new_ZoomIn, bind, ret.
  destruct (ZoomIn_init kw) as [z|e] eqn:E.
  - left. exists kw, z. rewrite ?E. auto.
  - right. exists kw, e. rewrite ?E. auto.
Qed.

(** [get_predictor] in terms of its two stages. *)
Lemma get_predictor_stages net brs_mode wf zp pp :
  gp net brs_mode wf zp pp =
    match mk_zoom (arg_or zoom_in_params_default zp) with
    | (log, Raise e) => (log, Raise e)
    | (log, Ok z) =>
        if String.eqb brs_mode "NoBRS" then
          (log ++ calls (new_bp net z (arg_or with_flip_default wf)
                               (merged_params pp)),
           outcome (new_bp net z (arg_or with_flip_default wf)
                           (merged_params pp)))
        else (log, Raise (NotImplementedError "Just support NoBRS mode"))
    end.
Proof.
  unfold get_predictor, merged_params, bind.
  destruct (mk_zoom _) as [log [z|e]]; [|reflexivity].
  destruct (String.eqb brs_mode "NoBRS"); simpl.
  - destruct (new_BasePredictor _ _ _ _ _) as [l [p|e]]; simpl;
      rewrite ?app_nil_r; reflexivity.
  - rewrite app_nil_r. reflexivity.
Qed.

(** C1. Every [brs_mode] other than ['NoBRS'] makes [get_predictor] raise:
    no [BasePredictor] is constructed, and the exception is the
    [NotImplementedError] of the mode test unless the [ZoomIn] constructor
    raised first.  With ['NoBRS'] the [BasePredictor] constructor is called
    (once the [ZoomIn] stage has gone through and no key of the caller's
    dictionary repeats an explicit keyword) and its result, the predictor,
    is what [get_predictor] returns. *)
Theorem get_predictor_mode_dispatch net brs_mode wf zp pp :
  (brs_mode <> "NoBRS" ->
     (exists e, outcome (gp net brs_mode wf zp pp) = Raise e) /\
     (forall z, outcome (mk_zoom (arg_or zoom_in_params_default zp)) = Ok z ->
        outcome (gp net brs_mode wf zp pp)
        = Raise (NotImplementedError "Just support NoBRS mode")) /\
     (forall n z f kw,
        NewBasePredictor n z f kw ∉ calls (gp net brs_mode wf zp pp))) /\
  (brs_mode = "NoBRS" ->
     forall z, outcome (mk_zoom (arg_or zoom_in_params_default zp)) = Ok z ->
     no_clash pp ->
     calls (gp net brs_mode wf zp pp)
       = calls (mk_zoom (arg_or zoom_in_params_default zp))
         ++ [NewBasePredictor net z (arg_or with_flip_default wf)
               (merged_params pp)] /\
     outcome (gp net brs_mode wf zp pp)
       = BasePredictor_init net z (arg_or with_flip_default wf)
           (merged_params pp) /\
     (forall p, BasePredictor_init net z (arg_or with_flip_default wf)
                  (merged_params pp) = Ok p ->
                outcome (gp net brs_mode wf zp pp) = Ok p)).
Proof.
  rewrite get_predictor_stages. split.
  - intros Hmode. apply String.eqb_neq in Hmode. rewrite Hmode.
    destruct (make_zoom_in_cases (arg_or zoom_in_params_default zp))
      as [[_ E]|[(kw & z & _ & _ & E)|(kw & e & _ & _ & E)]];
      rewrite E; unfold outcome, calls; simpl.
    + split; [eexists; reflexivity|split].
      * intros; reflexivity.
      * intros n z f kw' H. inversion H.
    + split; [eexists; reflexivity|split].
      * intros; reflexivity.
      * intros n z' f kw' H. apply list_elem_of_singleton in H. discriminate.
    + split; [eexists; reflexivity|split].
      * intros z Hz. discriminate.
      * intros n z' f kw' H. apply list_elem_of_singleton in H. discriminate.
  - intros -> z Hz [Hc1 Hc2].
    destruct (mk_zoom _) as [log [z'|e]]; unfold outcome in Hz; simpl in Hz;
      [|discriminate].
    injection Hz as ->. simpl.
    rewrite (new_BasePredictor_ok _ _ _ _ Hc1 Hc2). unfold calls, outcome. simpl.
    split; [reflexivity|split; [reflexivity|]]. intros p Hp. exact Hp.
Qed.

(** In ['NoBRS'] mode, past the [ZoomIn] stage and without a clash, the
    [BasePredictor] call is made and its result returned. *)
Lemma get_predictor_NoBRS net wf zp pp z :
  outcome (mk_zoom (arg_or zoom_in_params_default zp)) = Ok z ->
  no_clash pp ->
  calls (gp net "NoBRS" wf zp pp)
    = calls (mk_zoom (arg_or zoom_in_params_default zp))
      ++ [NewBasePredictor net z (arg_or with_flip_default wf)
            (merged_params pp)] /\
  outcome (gp net "NoBRS" wf zp pp)
    = BasePredictor_init net z (arg_or with_flip_default wf)
        (merged_params pp).
Proof.
  intros Hz [Hc1 Hc2]. rewrite get_predictor_stages.
  destruct (mk_zoom _) as [log [z'|e]]; unfold outcome in Hz; simpl in Hz;
    [|discriminate].
  injection Hz as ->. simpl.
  rewrite (new_BasePredictor_ok _ _ _ _ Hc1 Hc2). split; reflexivity.
Qed.

(** The calls of [get_predictor]: those of the [ZoomIn] stage, then at most
    the one [BasePredictor] call, made in ['NoBRS'] mode with the transform
    the first stage returned. *)
Lemma get_predictor_calls net brs_mode wf zp pp :
  exists rest,
    calls (gp net brs_mode wf zp pp)
      = calls (mk_zoom (arg_or zoom_in_params_default zp)) ++ rest /\
    forall e, e ∈ rest ->
      exists z, outcome (mk_zoom (arg_or zoom_in_params_default zp)) = Ok z /\
                brs_mode = "NoBRS" /\
                e = NewBasePredictor net z (arg_or with_flip_default wf)
                      (merged_params pp).
Proof.
  rewrite get_predictor_stages.
  destruct (mk_zoom _) as [log [z|e]]; unfold calls, outcome; simpl.
  - destruct (String.eqb brs_mode "NoBRS") eqn:Hm; simpl.
    + eexists; split; [reflexivity|]. intros e He.
      exists z. split; [reflexivity|]. split; [by apply String.eqb_eq|].
      by apply new_BasePredictor_calls.
    + exists []. rewrite app_nil_r. split; [reflexivity|].
      intros e He. inversion He.
  - exists []. rewrite app_nil_r. split; [reflexivity|].
    intros e' He. inversion He.
Qed.

Lemma make_zoom_in_calls (zp : option kwargs) :
  calls (mk_zoom zp) = match zp with Some kw => [NewZoomIn kw] | None => [] end.
Proof.
  destruct zp as [kw|]; [|reflexivity].
  unfold make_zoom_in, new_ZoomIn, bind, ret, calls.
  destruct (ZoomIn_init kw); reflexivity.
Qed.

Lemma make_zoom_in_None_inv (zp : option kwargs) :
  outcome (mk_zoom zp) = Ok None -> zp = None.
Proof.
  destruct zp as [kw|]; [|reflexivity].
  unfold make_zoom_in, new_ZoomIn, bind, ret, outcome.
  destruct (ZoomIn_init kw); simpl; discriminate.
Qed.

(** C3. With [zoom_in_params = None] no [ZoomIn] is constructed, every
    [BasePredictor] call carries [zoom_in = None], and in ['NoBRS'] mode
    that call is made and its result returned. *)
Theorem zoom_in_params_None_disables_zoom net brs_mode wf pp :
  (forall kw, NewZoomIn kw ∉ calls (gp net brs_mode wf (Some None) pp)) /\
  (forall n z f kw,
     NewBasePredictor n z f kw ∈ calls (gp net brs_mode wf (Some None) pp) ->
     z = None) /\
  (brs_mode = "NoBRS" -> no_clash pp ->
     calls (gp net brs_mode wf (Some None) pp)
       = [NewBasePredictor net None (arg_or with_flip_default wf)
            (merged_params pp)] /\
     outcome (gp net brs_mode wf (Some None) pp)
       = BasePredictor_init net None (arg_or with_flip_default wf)
           (merged_params pp)).
Proof.
  destruct (get_predictor_calls net brs_mode wf (Some None) pp)
    as (rest & Hcalls & Hrest).
  simpl in Hcalls, Hrest. split; [|split].
  - intros kw Hin. rewrite Hcalls in Hin. simpl in Hin.
    destruct (Hrest _ Hin) as (z & _ & _ & Hz). discriminate.
  - intros n z f kw Hin. rewrite Hcalls in Hin. simpl in Hin.
    destruct (Hrest _ Hin) as (z' & Hz' & _ & He).
    unfold outcome in Hz'. simpl in Hz'. congruence.
  - intros -> [Hc1 Hc2]. rewrite get_predictor_stages. simpl.
    rewrite (new_BasePredictor_ok _ _ _ _ Hc1 Hc2). split; reflexivity.
Qed.

(** C4. In ['NoBRS'] mode the dictionary handed to [BasePredictor] maps
    [optimize_after_n_clicks] to [1] when the caller gives no
    [predictor_params], or one without that key, and to the caller's value
    when the key is there. *)
Theorem optimize_after_n_clicks_default net wf zp pp z :
  outcome (mk_zoom (arg_or zoom_in_params_default zp)) = Ok z ->
  no_clash pp ->
  calls (gp net "NoBRS" wf zp pp)
    = calls (mk_zoom (arg_or zoom_in_params_default zp))
      ++ [NewBasePredictor net z (arg_or with_flip_default wf)
            (merged_params pp)] /\
  outcome (gp net "NoBRS" wf zp pp)
    = BasePredictor_init net z (arg_or with_flip_default wf)
        (merged_params pp) /\
  (supplied pp "optimize_after_n_clicks" = None ->
     merged_params pp !! "optimize_after_n_clicks" = Some (PyInt 1)) /\
  (forall v, supplied pp "optimize_after_n_clicks" = Some v ->
     merged_params pp !! "optimize_after_n_clicks" = Some v).
Proof.
  intros Hz Hclash.
  destruct (get_predictor_NoBRS net wf zp pp z Hz Hclash) as [Hc Ho].
  split; [exact Hc|]. split; [exact Ho|].
  unfold supplied, merged_params, dict_ior.
  destruct (arg_or predictor_params_default pp) as [d|]; split.
  - intros Hnone. rewrite lookup_union_r by exact Hnone.
    apply lookup_singleton_eq.
  - intros v Hv. apply lookup_union_Some_l. exact Hv.
  - intros _. apply lookup_singleton_eq.
  - intros v Hv. discriminate.
Qed.

(** C5. [with_flip] defaults to [True]: leaving it out is passing [True];
    and every [BasePredictor] call carries the caller's [with_flip]
    unchanged, a call that in ['NoBRS'] mode is indeed made. *)
Theorem with_flip_default_passthrough net brs_mode wf zp pp :
  with_flip_default = true /\
  gp net brs_mode None zp pp = gp net brs_mode (Some true) zp pp /\
  (forall n z f kw,
     NewBasePredictor n z f kw ∈ calls (gp net brs_mode wf zp pp) ->
     f = arg_or true wf) /\
  (brs_mode = "NoBRS" ->
   forall z, outcome (mk_zoom (arg_or zoom_in_params_default zp)) = Ok z ->
   no_clash pp ->
   NewBasePredictor net z (arg_or true wf) (merged_params pp)
     ∈ calls (gp net brs_mode wf zp pp)).
Proof.
  split; [reflexivity|]. split; [reflexivity|]. split.
  - intros n z f kw Hin.
    destruct (get_predictor_calls net brs_mode wf zp pp)
      as (rest & Hcalls & Hrest).
    rewrite Hcalls, make_zoom_in_calls in Hin.
    apply elem_of_app in Hin as [Hin|Hin].
    + destruct (arg_or zoom_in_params_default zp).
      * apply list_elem_of_singleton in Hin. discriminate.
      * inversion Hin.
    + destruct (Hrest _ Hin) as (z' & _ & _ & He). by injection He as _ _ -> _.
  - intros -> z Hz Hclash.
    destruct (get_predictor_NoBRS net wf zp pp z Hz Hclash) as [Hc _].
    rewrite Hc. apply elem_of_app. right. by apply list_elem_of_singleton.
Qed.

(** C8. Leaving [zoom_in_params] out constructs a [ZoomIn] from the empty
    dictionary, that is with its own defaults; no [ZoomIn] is constructed,
    and a [BasePredictor] gets [zoom_in = None], only when the caller passes
    [None] itself. *)
Theorem zoom_in_params_omitted_enables_zoom net brs_mode wf pp :
  zoom_in_params_default = Some ∅ /\
  (exists rest,
     calls (gp net brs_mode wf None pp) = NewZoomIn ∅ :: rest) /\
  (forall zp,
     (forall kw, NewZoomIn kw ∉ calls (gp net brs_mode wf zp pp))
     <-> zp = Some None) /\
  (forall zp n f kw,
     NewBasePredictor n None f kw ∈ calls (gp net brs_mode wf zp pp) ->
     zp = Some None).
Proof.
  split; [reflexivity|]. split; [|split].
  - destruct (get_predictor_calls net brs_mode wf None pp)
      as (rest & Hcalls & _).
    exists rest. rewrite Hcalls, make_zoom_in_calls. reflexivity.
  - intros zp.
    destruct (get_predictor_calls net brs_mode wf zp pp)
      as (rest & Hcalls & Hrest).
    rewrite make_zoom_in_calls in Hcalls. split.
    + intros Hno. destruct zp as [[kw|]|]; [exfalso|reflexivity|exfalso].
      * apply (Hno kw). rewrite Hcalls. simpl. apply list_elem_of_here.
      * apply (Hno ∅). rewrite Hcalls. simpl. apply list_elem_of_here.
    + intros -> kw Hin. rewrite Hcalls in Hin. simpl in Hin.
      destruct (Hrest _ Hin) as (z & _ & _ & He). discriminate.
  - intros zp n f kw Hin.
    destruct (get_predictor_calls net brs_mode wf zp pp)
      as (rest & Hcalls & Hrest).
    rewrite Hcalls, make_zoom_in_calls in Hin.
    apply elem_of_app in Hin as [Hin|Hin].
    + destruct (arg_or zoom_in_params_default zp).
      * apply list_elem_of_singleton in Hin. discriminate.
      * inversion Hin.
    + destruct (Hrest _ Hin) as (z & Hz & _ & He).
      injection He as _ <- _ _.
      apply make_zoom_in_None_inv in Hz.
      destruct zp as [[kw'|]|]; simpl in Hz;
        unfold zoom_in_params_default in Hz; congruence.
Qed.

End GetPredictorFacts.

(** The theorems at the recording constructors of [Predictor.Demo]. *)

Lemma get_predictor_mode_dispatch_witness :
  Predictor.outcome (Predictor.Demo.run 7%nat "f-BRS" None None None)
    = Raise (NotImplementedError "Just support NoBRS mode") /\
  Predictor.outcome (Predictor.Demo.run 7%nat "NoBRS" None None None)
    = Ok {| Predictor.Demo.p_net := 7;
            Predictor.Demo.p_zoom_in :=
              Some {| Predictor.Demo.zoom_kw := ∅ |};
            Predictor.Demo.p_with_flip := true;
            Predictor.Demo.p_kw := {[ "optimize_after_n_clicks" := PyInt 1 ]} |}.
Proof.
  split.
  - destruct (get_predictor_mode_dispatch Predictor.Demo.ZoomIn_init
                Predictor.Demo.BasePredictor_init 7%nat "f-BRS" None None None)
      as [H _].
    destruct (H ltac:(discriminate)) as (_ & H2 & _).
    apply (H2 (Some {| Predictor.Demo.zoom_kw := ∅ |})).
    vm_compute. reflexivity.
  - destruct (get_predictor_mode_dispatch Predictor.Demo.ZoomIn_init
                Predictor.Demo.BasePredictor_init 7%nat "NoBRS" None None None)
      as [_ H].
    destruct (H eq_refl (Some {| Predictor.Demo.zoom_kw := ∅ |}))
      as (_ & _ & H3).
    + vm_compute. reflexivity.
    + split; vm_compute; reflexivity.
    + apply H3. vm_compute. reflexivity.
Defined.

Lemma zoom_in_params_None_disables_zoom_witness :
  Predictor.calls (Predictor.Demo.run 7%nat "NoBRS" None (Some None) None)
    = [Predictor.NewBasePredictor 7%nat None true
         {[ "optimize_after_n_clicks" := PyInt 1 ]}].
Proof.
  destruct (zoom_in_params_None_disables_zoom Predictor.Demo.ZoomIn_init
              Predictor.Demo.BasePredictor_init 7%nat "NoBRS" None None)
    as (_ & _ & H).
  apply H; [reflexivity|]. split; vm_compute; reflexivity.
Defined.

Lemma optimize_after_n_clicks_default_witness :
  Predictor.merged_params (Some (Some {[ "net_clicks_limit" := PyInt 8 ]}))
    !! "optimize_after_n_clicks" = Some (PyInt 1) /\
  Predictor.merged_params (Some (Some {[ "optimize_after_n_clicks" := PyInt 3 ]}))
    !! "optimize_after_n_clicks" = Some (PyInt 3).
Proof.
  split.
  - destruct (optimize_after_n_clicks_default Predictor.Demo.ZoomIn_init
                Predictor.Demo.BasePredictor_init 7%nat None None
                (Some (Some {[ "net_clicks_limit" := PyInt 8 ]}))
                (Some {| Predictor.Demo.zoom_kw := ∅ |}))
      as (_ & _ & H & _).
    + vm_compute. reflexivity.
    + split; vm_compute; reflexivity.
    + apply H. vm_compute. reflexivity.
  - destruct (optimize_after_n_clicks_default Predictor.Demo.ZoomIn_init
                Predictor.Demo.BasePredictor_init 7%nat None None
                (Some (Some {[ "optimize_after_n_clicks" := PyInt 3 ]}))
                (Some {| Predictor.Demo.zoom_kw := ∅ |}))
      as (_ & _ & _ & H).
    + vm_compute. reflexivity.
    + split; vm_compute; reflexivity.
    + apply H. vm_compute. reflexivity.
Defined.

Lemma with_flip_default_passthrough_witness :
  Predictor.NewBasePredictor 7%nat
      (Some {| Predictor.Demo.zoom_kw := ∅ |}) false
      {[ "optimize_after_n_clicks" := PyInt 1 ]}
    ∈ Predictor.calls (Predictor.Demo.run 7%nat "NoBRS" (Some false) None None).
Proof.
  destruct (with_flip_default_passthrough Predictor.Demo.ZoomIn_init
              Predictor.Demo.BasePredictor_init 7%nat "NoBRS" (Some false)
              None None) as (_ & _ & _ & H).
  apply (H eq_refl (Some {| Predictor.Demo.zoom_kw := ∅ |})).
  - vm_compute. reflexivity.
  - split; vm_compute; reflexivity.
Defined.

Lemma zoom_in_params_omitted_enables_zoom_witness :
  exists kw,
    Predictor.NewZoomIn kw
      ∈ Predictor.calls (Predictor.Demo.run 7%nat "NoBRS" None None None).
Proof.
  destruct (zoom_in_params_omitted_enables_zoom Predictor.Demo.ZoomIn_init
              Predictor.Demo.BasePredictor_init 7%nat "NoBRS" None None)
    as (_ & [rest Hrest] & _).
  exists ∅. unfold Predictor.Demo.run. rewrite Hrest. apply list_elem_of_here.
Defined.

(** ** Strings *)

Section StringFacts.

Import PyString.

Lemma chars_app (a b : string) : chars (a +:+ b) = chars a ++ chars b.
Proof. induction a as [|c a IH]; simpl; [reflexivity|]. by rewrite <- IH. Qed.

Lemma str_chars (s : string) : str (chars s) = s.
Proof. apply string_of_list_ascii_of_string. Qed.

Lemma chars_str (l : list ascii) : chars (str l) = l.
Proof. apply list_ascii_of_string_of_list_ascii. Qed.

Lemma chars_inj (a b : string) : chars a = chars b -> a = b.
Proof. intros H. rewrite <- (str_chars a), <- (str_chars b). by rewrite H. Qed.

Lemma str_app (k l : list ascii) : str (k ++ l) = str k +:+ str l.
Proof. apply chars_inj. by rewrite chars_app, !chars_str. Qed.

Lemma string_app_assoc (a b c : string) : a +:+ b +:+ c = (a +:+ b) +:+ c.
Proof. apply chars_inj. by rewrite !chars_app, app_assoc. Qed.

Lemma append_inv_head (a b c : string) : a +:+ b = a +:+ c -> b = c.
Proof.
  intros H. apply chars_inj. apply (f_equal chars) in H.
  rewrite !chars_app in H. by apply app_inv_head in H.
Qed.

Lemma append_inv_tail (a b c : string) : a +:+ c = b +:+ c -> a = b.
Proof.
  intros H. apply chars_inj. apply (f_equal chars) in H.
  rewrite !chars_app in H. by apply app_inv_tail in H.
Qed.

(** A string that ends with [suf] is its slice without the last
    [len(suf)] characters, followed by [suf]. *)
Lemma endswith_drop_end (s suf : string) :
  endswith s suf = true -> s = drop_end (String.length suf) s +:+ suf.
Proof.
  unfold endswith, drop_end. intros H. apply bool_decide_eq_true in H.
  destruct H as [k Hk]. apply chars_inj.
  rewrite chars_app, chars_str, Hk.
  assert (Hlen : String.length suf = length (chars suf)).
  { clear. induction suf; simpl; [reflexivity|]. by rewrite IHsuf. }
  rewrite Hlen, length_app.
  replace (length k + length (chars suf) - length (chars suf))%nat
    with (length k) by lia.
  by rewrite take_app_length.
Qed.

Lemma endswith_app (a s suf : string) :
  endswith s suf = true -> endswith (a +:+ s) suf = true.
Proof.
  unfold endswith. intros H. apply bool_decide_eq_true in H.
  apply bool_decide_eq_true. rewrite chars_app.
  by apply suffix_app_r.
Qed.

Lemma components_nonempty (s : string) : components s <> [].
Proof.
  destruct s as [|c s]; simpl; [discriminate|].
  destruct (Ascii.eqb c "/"); [discriminate|].
  destruct (components s); discriminate.
Qed.

Lemma components_one (s f : string) : components s = [f] -> s = f.
Proof.
  revert f. induction s as [|c s IH]; intros f; simpl.
  - intros H. by injection H as <-.
  - pose proof (components_nonempty s) as Hne.
    destruct (Ascii.eqb c "/").
    + intros H. injection H as _ H. contradiction.
    + destruct (components s) as [|x xs] eqn:Ex; [contradiction|].
      intros H. injection H as <- ->. f_equal. by apply IH.
Qed.

(** A path of two components is the two joined by a slash. *)
Lemma components_two (s d f : string) :
  components s = [d; f] -> s = d +:+ "/" +:+ f.
Proof.
  revert d. induction s as [|c s IH]; intros d; simpl; [discriminate|].
  destruct (Ascii.eqb c "/") eqn:Ec.
  - apply Ascii.eqb_eq in Ec as ->. intros H. injection H as <- H.
    by rewrite (components_one _ _ H).
  - destruct (components s) as [|x xs] eqn:Ex; [discriminate|].
    intros H. injection H as <- ->. by rewrite (IH x eq_refl).
Qed.

(** The white space of [str.strip] and [str.isspace] among the code points
    below 256: 9 to 13, 28 to 32, 133 and 160. *)
Lemma is_space_spec (c : ascii) :
  is_space c =
    let n := nat_of_ascii c in
    ((9 <=? n) && (n <=? 13) || (28 <=? n) && (n <=? 32)
     || (n =? 133) || (n =? 160))%nat.
Proof. destruct c as [[] [] [] [] [] [] [] []]; reflexivity. Qed.

(** The letters [str.lower] changes among the code points below 256, and
    what it makes of them. *)
Lemma lower_char_spec (c : ascii) :
  nat_of_ascii (lower_char c) =
    if is_upper (nat_of_ascii c) then (nat_of_ascii c + 32)%nat
    else nat_of_ascii c.
Proof. destruct c as [[] [] [] [] [] [] [] []]; reflexivity. Qed.

(** A no-break space before a line and a NEL and a line feed after it are
    stripped; capital E with acute accent is lowered with the ASCII
    letters. *)
Example strip_no_break_space :
  strip (String "160" "a.jpg a.png" +:+ String "133" (String "010" EmptyString))
    = "a.jpg a.png".
Proof. reflexivity. Qed.

Example lower_latin1 : lower (String "201" "COLE") = String "233" "cole".
Proof. reflexivity. Qed.

End StringFacts.

(** ** [update_md5.py] *)

Section UpdateMd5Facts.

Import PyString UpdateMd5.

Variable md5_hexdigest : list Byte.byte -> string.

Local Abbreviation digest_file b :=
  (File (String.list_byte_of_string (md5_hexdigest b))).

(** A matching path is a stem followed by [.pdparams], and its sidecar is
    the stem followed by [.md5]. *)
Lemma glob_match_stem (p : string) :
  glob_match p = true ->
  p = drop_end (String.length ext) p +:+ ext /\
  md5_path_of p = drop_end (String.length ext) p +:+ ".md5".
Proof.
  unfold glob_match. intros H. split; [|reflexivity].
  destruct (components p) as [|d [|f [|]]] eqn:Ec; try discriminate.
  apply andb_true_iff in H as [_ Hf].
  apply endswith_drop_end.
  rewrite (components_two _ _ _ Ec).
  apply endswith_app, endswith_app, Hf.
Qed.

Lemma md5_path_of_inj (p q : string) :
  glob_match p = true -> glob_match q = true ->
  md5_path_of p = md5_path_of q -> p = q.
Proof.
  intros Hp Hq H.
  destruct (glob_match_stem p Hp) as [Ep _].
  destruct (glob_match_stem q Hq) as [Eq _].
  unfold md5_path_of in H. apply append_inv_tail in H.
  rewrite Ep, Eq. by rewrite H.
Qed.

(** A sidecar path never matches the pattern. *)
Lemma md5_path_of_not_weight (p q : string) :
  glob_match q = true -> md5_path_of p <> q.
Proof.
  intros Hq H. destruct (glob_match_stem q Hq) as [Eq _].
  rewrite Eq in H. unfold md5_path_of in H.
  apply (f_equal (fun s => reverse (chars s))) in H.
  rewrite !chars_app, !reverse_app in H.
  simpl in H. discriminate.
Qed.

Lemma body_ok (t : tree) (p : string) (b : list Byte.byte) :
  t !! p = Some (File b) -> t !! md5_path_of p <> Some Dir ->
  body md5_hexdigest t p = Ok (<[ md5_path_of p := digest_file b ]> t).
Proof.
  intros Hp Hd. unfold body, read_bytes, write_text. rewrite Hp.
  destruct (t !! md5_path_of p) as [[c|]|]; try reflexivity. congruence.
Qed.

(** The loop over a list of distinct matching regular files, none of whose
    sidecar paths is a directory: it completes, leaves the digest of each
    file in its sidecar, and changes no other path. *)
Lemma for_each_spec (t0 : tree) (l : list string) :
  NoDup l ->
  (forall p, p ∈ l -> glob_match p = true /\ exists b, t0 !! p = Some (File b)) ->
  forall t : tree,
  (forall p, p ∈ l -> t !! p = t0 !! p) ->
  (forall p, p ∈ l -> t !! md5_path_of p <> Some Dir) ->
  exists t' : tree,
    for_each md5_hexdigest l t = Ok t' /\
    (forall p b, p ∈ l -> t0 !! p = Some (File b) ->
                 t' !! md5_path_of p = Some (digest_file b)) /\
    (forall q, (forall p, p ∈ l -> q <> md5_path_of p) -> t' !! q = t !! q).
Proof.
  induction l as [|p l IH]; intros Hnd Hl t Hsame Hdir.
  - exists t. split; [reflexivity|]. split; [|reflexivity].
    intros p b Hp. inversion Hp.
  - apply NoDup_cons in Hnd as [Hp_notin Hnd].
    destruct (Hl p (list_elem_of_here _ _)) as [Hmp [b Hb]].
    assert (Hread : t !! p = Some (File b)).
    { rewrite Hsame; [exact Hb|apply list_elem_of_here]. }
    simpl. rewrite (body_ok t p b Hread (Hdir p (list_elem_of_here _ _))).
    destruct (IH Hnd (fun q Hq => Hl q (list_elem_of_further _ _ _ Hq))
                (<[ md5_path_of p := digest_file b ]> t))
      as (t' & Hrun & Hside & Hother).
    + intros q Hq. rewrite lookup_insert_ne.
      * apply Hsame. by apply list_elem_of_further.
      * apply md5_path_of_not_weight.
        apply (Hl q). by apply list_elem_of_further.
    + intros q Hq. destruct (decide (md5_path_of p = md5_path_of q)) as [E|N].
      * rewrite <- E, lookup_insert_eq. discriminate.
      * rewrite lookup_insert_ne by exact N.
        apply Hdir. by apply list_elem_of_further.
    + exists t'. split; [exact Hrun|]. split.
      * intros q c Hq Hc. apply elem_of_cons in Hq as [->|Hq].
        -- rewrite Hother.
           ++ rewrite lookup_insert_eq. congruence.
           ++ intros r Hr E. apply md5_path_of_inj in E; [|exact Hmp|].
              ** subst r. contradiction.
              ** apply (Hl r). by apply list_elem_of_further.
        -- by apply Hside.
      * intros q Hq. rewrite Hother.
        -- apply lookup_insert_ne. intros E. apply (Hq p); [|done].
           apply list_elem_of_here.
        -- intros r Hr. apply Hq. by apply list_elem_of_further.
Qed.

Lemma elem_of_glob (t : tree) (p : string) :
  p ∈ glob t <-> is_weight t p.
Proof.
  unfold glob, is_weight. rewrite list_elem_of_filter, list_elem_of_fmap.
  split.
  - intros [Hm [[q n] [-> Hin]]]. split; [exact Hm|].
    apply elem_of_map_to_list in Hin. by exists n.
  - intros [Hm [n Hn]]. split; [exact Hm|].
    exists (p, n). split; [reflexivity|]. by apply elem_of_map_to_list.
Qed.

Lemma NoDup_glob (t : tree) : NoDup (glob t).
Proof. unfold glob. apply NoDup_filter, NoDup_fst_map_to_list. Qed.

(** C2. When no entry that matches [*/*.pdparams] is a directory and no
    sidecar path is one, the script completes; for every matching
    weight file the path with [.pdparams] replaced by [.md5] then holds
    exactly the hex digest of the file's bytes; and every path that is not
    such a sidecar is as it was. *)
Theorem update_md5_writes_sidecars (t : tree) :
  no_dir_in_the_way t = true ->
  exists t' : tree,
    main md5_hexdigest t = Ok t' /\
    (forall p b, glob_match p = true -> t !! p = Some (File b) ->
       (exists stem, p = stem +:+ ".pdparams" /\
                     md5_path_of p = stem +:+ ".md5") /\
       t' !! md5_path_of p
         = Some (File (String.list_byte_of_string (md5_hexdigest b)))) /\
    (forall q, (forall p, is_weight t p -> q <> md5_path_of p) ->
       t' !! q = t !! q).
Proof.
  intros Hclean.
  assert (Hfiles : forall p, is_weight t p -> t !! p <> Some Dir).
  { intros p Hp Hd. apply elem_of_glob, list_elem_of_In in Hp.
    unfold no_dir_in_the_way in Hclean.
    rewrite forallb_forall in Hclean. specialize (Hclean p Hp).
    unfold is_dir in Hclean. rewrite Hd in Hclean. discriminate. }
  assert (Hside : forall p, is_weight t p -> t !! md5_path_of p <> Some Dir).
  { intros p Hp Hd. apply elem_of_glob, list_elem_of_In in Hp.
    unfold no_dir_in_the_way in Hclean.
    rewrite forallb_forall in Hclean. specialize (Hclean p Hp).
    apply andb_true_iff in Hclean as [_ Hclean].
    unfold is_dir in Hclean. rewrite Hd in Hclean. discriminate. }
  destruct (for_each_spec t (glob t) (NoDup_glob t)) with (t := t)
    as (t' & Hrun & Hdig & Hother).
  - intros p Hp. apply elem_of_glob in Hp. split; [apply Hp|].
    destruct Hp as [Hm [n Hn]]. destruct n as [b|].
    + by exists b.
    + exfalso. apply (Hfiles p); [|exact Hn]. split; [exact Hm|by exists Dir].
  - reflexivity.
  - intros p Hp. apply Hside. by apply elem_of_glob.
  - exists t'. split; [exact Hrun|]. split.
    + intros p b Hm Hb. split.
      * exists (drop_end (String.length ext) p). by apply glob_match_stem.
      * apply Hdig; [|exact Hb]. apply elem_of_glob. split; [exact Hm|by exists (File b)].
    + intros q Hq. apply Hother. intros p Hp. apply Hq. by apply elem_of_glob.
Qed.

End UpdateMd5Facts.

Lemma update_md5_writes_sidecars_witness :
  exists t' : UpdateMd5.tree,
    UpdateMd5.main UpdateMd5.demo_md5 UpdateMd5.demo_tree = Ok t' /\
    t' !! "m/x.md5"
      = Some (UpdateMd5.File
                (String.list_byte_of_string "0cb988d042a7f28dd5fe2b55b3f5ac7a")).
Proof.
  destruct (update_md5_writes_sidecars UpdateMd5.demo_md5 UpdateMd5.demo_tree)
    as (t' & Hrun & Hdig & _).
  - vm_compute. reflexivity.
  - exists t'. split; [exact Hrun|].
    apply (Hdig "m/x.pdparams" [Byte.x01; Byte.x02]).
    + vm_compute. reflexivity.
    + vm_compute. reflexivity.
Defined.

(** ** [Dataset.__init__] *)

Section DatasetFacts.

Import PyString Dataset.

Context {Transforms Composed : Type}.
Variable Compose : Transforms -> result (option Composed).
Variable path_exists : string -> bool.
Variable read_lines : string -> result (list string).

Local Abbreviation init_ := (init Compose path_exists read_lines).
Local Abbreviation reaches := (reaches_file_list Compose path_exists read_lines).

Lemma lower_char_idem (c : ascii) : lower_char (lower_char c) = lower_char c.
Proof. destruct c as [[] [] [] [] [] [] [] []]; reflexivity. Qed.

Lemma lower_idem (s : string) : lower (lower s) = lower s.
Proof.
  induction s as [|c s IH]; simpl; [reflexivity|].
  by rewrite lower_char_idem, IH.
Qed.

Lemma split_scan_nonempty (sep s : string) (skip : nat) (cur : string) :
  split_scan sep s skip cur <> [].
Proof.
  revert skip cur. induction s as [|c s IH]; intros skip cur;
    cbn [split_scan].
  - discriminate.
  - destruct skip; [|apply IH].
    destruct (String.prefix sep (String c s)); [discriminate|apply IH].
Qed.

Lemma split_nonempty_sep (s sep : string) :
  sep <> EmptyString -> split s sep = Ok (split_scan sep s 0 EmptyString).
Proof.
  intros H. unfold split.
  destruct (String.eqb sep EmptyString) eqn:E; [|reflexivity].
  by apply String.eqb_eq in E.
Qed.

Lemma malformed_sep (sep line : string) :
  malformed sep line -> sep <> EmptyString.
Proof. intros (items & Hs & _) ->. discriminate. Qed.

(** A line of a train or val list: the entry of its two fields, or the
    format error. *)
Lemma parse_line_train_val (root sep mode_ line : string) :
  sep <> EmptyString -> mode_ ∈ ["train"; "val"] ->
  (malformed sep line /\
   parse_line root sep mode_ line = Raise (format_error sep)) \/
  (~ malformed sep line /\
   exists e, parse_line root sep mode_ line = Ok e).
Proof.
  intros Hsep Hmode. unfold parse_line, malformed.
  rewrite (split_nonempty_sep _ _ Hsep). cbn [mbind result_mbind result_bind].
  destruct (length (split_scan sep (strip line) 0 EmptyString) =? 2)%nat eqn:El.
  - right. apply Nat.eqb_eq in El. split.
    + intros (items & Hi & Hl). injection Hi as <-. contradiction.
    + destruct (split_scan _ _ _ _) as [|a [|b [|]]]; try discriminate.
      eexists. reflexivity.
  - left. apply Nat.eqb_neq in El. split.
    + eexists. split; [reflexivity|exact El].
    + simpl. by rewrite bool_decide_eq_true_2.
Qed.

Lemma read_file_list_train_val (root sep mode_ : string) (lines : list string) :
  mode_ ∈ ["train"; "val"] ->
  (exists line, line ∈ lines /\ malformed sep line) ->
  forall acc,
    read_file_list root sep mode_ lines acc = Raise (format_error sep).
Proof.
  intros Hmode (bad & Hin & Hbad).
  pose proof (malformed_sep _ _ Hbad) as Hsep.
  induction lines as [|line rest IH]; intros acc; [inversion Hin|].
  simpl.
  destruct (parse_line_train_val root sep mode_ line Hsep Hmode)
    as [[_ ->]|[Hgood [e ->]]]; [reflexivity|].
  cbn [mbind result_mbind result_bind]. apply IH.
  apply elem_of_cons in Hin as [->|Hin]; [contradiction|exact Hin].
Qed.

(** A line of a test list always yields an entry; a malformed one yields
    its first field and no label. *)
Lemma parse_line_test (root sep line : string) :
  sep <> EmptyString ->
  exists e, parse_line root sep "test" line = Ok e /\
    (malformed sep line ->
     exists items first,
       split (strip line) sep = Ok items /\ items !! 0%nat = Some first /\
       e = (path_join root first, None)).
Proof.
  intros Hsep. unfold parse_line, malformed.
  rewrite (split_nonempty_sep _ _ Hsep). cbn [mbind result_mbind result_bind].
  pose proof (split_scan_nonempty sep (strip line) 0 EmptyString) as Hne.
  destruct (split_scan sep (strip line) 0 EmptyString) as [|a items] eqn:Es;
    [contradiction|].
  destruct (length (a :: items) =? 2)%nat eqn:El.
  - apply Nat.eqb_eq in El. destruct items as [|b [|]]; try discriminate.
    eexists. split; [reflexivity|].
    intros (items & Hi & Hl). rewrite ?Es in Hi. injection Hi as <-.
    contradiction.
  - eexists. split; [reflexivity|].
    intros _. exists (a :: items), a.
    rewrite ?Es. repeat split.
Qed.

Lemma read_file_list_test (root sep : string) (lines : list string) :
  sep <> EmptyString ->
  forall acc, exists entries,
    read_file_list root sep "test" lines acc = Ok (acc ++ entries) /\
    Forall2 (fun line e => parse_line root sep "test" line = Ok e)
            lines entries.
Proof.
  intros Hsep. induction lines as [|line rest IH]; intros acc.
  - exists []. rewrite app_nil_r. split; [reflexivity|constructor].
  - destruct (parse_line_test root sep line Hsep) as (e & He & _).
    destruct (IH (acc ++ [e])) as (entries & Hrun & Hall).
    exists (e :: entries). simpl. rewrite He.
    cbn [mbind result_mbind result_bind]. rewrite Hrun, <- app_assoc.
    split; [reflexivity|]. by constructor.
Qed.

(** Past the checks, the constructor's result is that of reading the
    list. *)
Lemma init_reaches tr root nc mode_ tp vp testp sep ii ed c lines :
  reaches tr root mode_ tp vp testp c lines ->
  lower mode_ ∈ ["train"; "val"; "test"] ->
  init_ tr root nc mode_ tp vp testp sep ii ed =
    match read_file_list root sep (lower mode_) lines [] with
    | Raise e => Raise e
    | Ok entries =>
        Ok {| dataset_root := root; transforms := c; file_list := entries;
              mode := lower mode_; num_classes := nc; ignore_index := ii;
              edge := ed |}
    end.
Proof.
  intros (HC & Hroot & p & Hsel & Hp & Hread) Hmode.
  unfold init. rewrite HC. cbn [mbind result_mbind result_bind].
  rewrite lower_idem, (bool_decide_eq_true_2 _ Hmode), Hroot.
  cbn [negb].
  assert (Hpath :
    (if String.eqb (lower mode_) "train" then required_path path_exists "train" tp
     else if String.eqb (lower mode_) "val" then required_path path_exists "val" vp
     else required_path path_exists "test" testp) = Ok p).
  { unfold selected_path in Hsel. unfold required_path.
    destruct (String.eqb (lower mode_) "train");
      [|destruct (String.eqb (lower mode_) "val")];
      rewrite Hsel, Hp; reflexivity. }
  rewrite Hpath. cbn [mbind result_mbind result_bind]. rewrite Hread.
  cbn [mbind result_mbind result_bind].
  destruct (read_file_list _ _ _ _ _); reflexivity.
Qed.

(** C9. A mode that, lowercased, is none of ['train'], ['val'], ['test']
    makes the constructor raise [ValueError].  Once the file list is being
    read, a line that does not split into exactly two fields raises
    [ValueError] in train and val mode; in test mode every line is accepted
    and such a line becomes an entry with its first field as image path and
    no label path.  The mode, the separator and the lines are any strings
    over the code points below 256, with [str.lower], [str.strip] and
    [str.split] as Python has them there: a line that starts or ends with
    a no-break space or a NEL is stripped of it before it is split. *)
Theorem dataset_init_mode_and_lines tr root nc mode_ tp vp testp sep ii ed :
  (forall c, Compose tr = Ok c ->
     lower mode_ ∉ ["train"; "val"; "test"] ->
     init_ tr root nc mode_ tp vp testp sep ii ed
       = Raise (ValueError ("mode should be 'train', 'val' or 'test', but got "
                            +:+ lower mode_ +:+ "."))) /\
  (forall c lines,
     reaches tr root mode_ tp vp testp c lines ->
     lower mode_ ∈ ["train"; "val"] ->
     (exists line, line ∈ lines /\ malformed sep line) ->
     init_ tr root nc mode_ tp vp testp sep ii ed
       = Raise (ValueError ("File list format incorrect! In training or evaluation task it should be image_name"
                            +:+ sep +:+ "label_name\n"))) /\
  (forall c lines,
     reaches tr root mode_ tp vp testp c lines ->
     lower mode_ = "test" ->
     sep <> EmptyString ->
     exists ds,
       init_ tr root nc mode_ tp vp testp sep ii ed = Ok ds /\
       length (file_list ds) = length lines /\
       forall i line,
         lines !! i = Some line -> malformed sep line ->
         exists items first,
           split (strip line) sep = Ok items /\
           items !! 0%nat = Some first /\
           file_list ds !! i = Some (path_join root first, None)).
Proof.
  split; [|split].
  - intros c HC Hmode. unfold init. rewrite HC.
    cbn [mbind result_mbind result_bind].
    rewrite lower_idem, (bool_decide_eq_false_2 _ Hmode). reflexivity.
  - intros c lines Hreach Hmode Hbad.
    rewrite (init_reaches _ _ _ _ _ _ _ _ _ _ c lines Hreach).
    + rewrite (read_file_list_train_val _ _ _ _ Hmode Hbad).
      reflexivity.
    + apply elem_of_cons in Hmode as [->|Hmode]; [apply list_elem_of_here|].
      apply list_elem_of_further.
      apply elem_of_cons in Hmode as [->|Hmode]; [apply list_elem_of_here|].
      inversion Hmode.
  - intros c lines Hreach Hmode Hsep.
    rewrite (init_reaches _ _ _ _ _ _ _ _ _ _ c lines Hreach)
      by (rewrite Hmode; do 2 apply list_elem_of_further;
          apply list_elem_of_here).
    rewrite Hmode.
    destruct (read_file_list_test root sep lines Hsep []) as (entries & -> & Hall).
    eexists. split; [reflexivity|]. simpl. split.
    + symmetry. by eapply Forall2_length.
    + intros i line Hi Hbad.
      destruct (Forall2_lookup_l _ _ _ _ _ Hall Hi) as (e & He & Hparse).
      destruct (parse_line_test root sep line Hsep) as (e' & He' & Hshape).
      destruct (Hshape Hbad) as (items & first & Hs & Hf & ->).
      exists items, first. split; [exact Hs|]. split; [exact Hf|].
      rewrite He. congruence.
Qed.

End DatasetFacts.

(** A train line that starts with a no-break space and ends with a NEL and
    a line feed has its two fields, as [line.strip().split(' ')] gives
    them. *)
Example parse_line_no_break_space :
  Dataset.parse_line "data" " " "train"
    (String "160" "a.jpg a.png"
       +:+ String "133" (String "010" EmptyString))
  = Ok ("data/a.jpg", Some "data/a.png").
Proof. reflexivity. Qed.

Lemma dataset_init_mode_and_lines_witness :
  Dataset.Demo.run 0%nat "data" 2%Z "Training" None None None " " 255%Z false
    = Raise (ValueError
               "mode should be 'train', 'val' or 'test', but got training.") /\
  Dataset.Demo.run 0%nat "data" 2%Z "Train" (Some "data/train.txt") None None
      " " 255%Z false
    = Raise (ValueError "File list format incorrect! In training or evaluation task it should be image_name label_name\n") /\
  exists ds,
    Dataset.Demo.run 0%nat "data" 2%Z "TEST" None None (Some "data/test.txt")
      " " 255%Z false = Ok ds /\
    Dataset.file_list ds !! 1%nat = Some ("data/b.jpg", None).
Proof.
  split; [|split].
  - destruct (dataset_init_mode_and_lines Dataset.Demo.Compose
             Dataset.Demo.path_exists Dataset.Demo.read_lines
             0%nat "data" 2%Z "Training" None None None " " 255%Z false)
      as (H & _ & _).
    apply (H (Some 0%nat)).
    + reflexivity.
    + vm_compute. intros Hin. inversion Hin as [|? ? ? H1]; subst.
      inversion H1 as [|? ? ? H2]; subst. inversion H2 as [|? ? ? H3]; subst.
      inversion H3.
  - destruct (dataset_init_mode_and_lines Dataset.Demo.Compose
             Dataset.Demo.path_exists Dataset.Demo.read_lines
             0%nat "data" 2%Z "Train" (Some "data/train.txt") None None " "
             255%Z false) as (_ & H & _).
    apply (H 0%nat ["a.jpg a.png"; "b.jpg"]).
    + split; [reflexivity|]. split; [reflexivity|].
      exists "data/train.txt". repeat split.
    + vm_compute. apply list_elem_of_here.
    + exists "b.jpg". split.
      * apply list_elem_of_further, list_elem_of_here.
      * exists ["b.jpg"]. split; [reflexivity|discriminate].
  - destruct (dataset_init_mode_and_lines Dataset.Demo.Compose
             Dataset.Demo.path_exists Dataset.Demo.read_lines
             0%nat "data" 2%Z "TEST" None None (Some "data/test.txt") " "
             255%Z false) as (_ & _ & H).
    destruct (H 0%nat ["a.jpg a.png"; "b.jpg"; "c.jpg c.png extra"])
      as (ds & Hrun & _ & Hlines).
    + split; [reflexivity|]. split; [reflexivity|].
      exists "data/test.txt". repeat split.
    + reflexivity.
    + discriminate.
    + exists ds. split; [exact Hrun|].
      destruct (Hlines 1%nat "b.jpg" eq_refl) as (items & first & Hs & Hf & He).
      * exists ["b.jpg"]. split; [reflexivity|discriminate].
      * vm_compute in Hs. injection Hs as <-. injection Hf as <-. exact He.
Defined.

(** ** Checkpoint retention in [train] *)

Section TrainFacts.

Import PyString Train.

Variable improves : Z -> bool.
Variable cfg : config.

Local Abbreviation k := (keep_checkpoint_max cfg).
Local Abbreviation csd := (current_save_dir cfg).
Local Abbreviation save := (save_checkpoint cfg).
Local Abbreviation pass := (iteration improves cfg).

Lemma current_save_dir_eq (i : Z) :
  csd i = join_prefix (save_dir cfg) +:+ "iter_" +:+ pretty i.
Proof.
  unfold current_save_dir, path_join, join_prefix.
  change (String.prefix "/" ("iter_" +:+ pretty i)) with false.
  cbv iota.
  destruct (String.eqb (save_dir cfg) EmptyString || endswith (save_dir cfg) "/");
    [reflexivity|].
  by rewrite <- string_app_assoc.
Qed.

Lemma best_model_dir_eq :
  best_model_dir cfg = join_prefix (save_dir cfg) +:+ "best_model".
Proof.
  unfold best_model_dir, path_join, join_prefix.
  change (String.prefix "/" "best_model") with false. cbv iota.
  destruct (String.eqb (save_dir cfg) EmptyString || endswith (save_dir cfg) "/");
    [reflexivity|].
  by rewrite <- string_app_assoc.
Qed.

Lemma current_save_dir_inj (i j : Z) : csd i = csd j -> i = j.
Proof.
  rewrite !current_save_dir_eq. intros H.
  apply append_inv_head in H. apply (append_inv_head "iter_") in H.
  by apply (inj pretty).
Qed.

Lemma best_model_not_checkpoint : ~ is_checkpoint_dir cfg (best_model_dir cfg).
Proof.
  intros [i Hi]. rewrite best_model_dir_eq, current_save_dir_eq in Hi.
  apply append_inv_head in Hi. discriminate.
Qed.

Lemma string_length_app (a b : string) :
  String.length (a +:+ b) = (String.length a + String.length b)%nat.
Proof. induction a as [|c a IH]; simpl; [reflexivity|]. by rewrite IH. Qed.

Lemma save_dir_not_checkpoint : ~ is_checkpoint_dir cfg (save_dir cfg).
Proof.
  intros [i Hi]. apply (f_equal String.length) in Hi.
  rewrite current_save_dir_eq, string_length_app in Hi.
  assert (String.length (save_dir cfg)
          <= String.length (join_prefix (save_dir cfg)))%nat.
  { unfold join_prefix. destruct (_ || _); [lia|].
    rewrite string_length_app. lia. }
  simpl in Hi. lia.
Qed.

Lemma elem_of_ensure_dir (d x : string) (ds : gset string) :
  x ∈ ensure_dir d ds <-> x = d \/ x ∈ ds.
Proof.
  unfold ensure_dir. destruct (bool_decide (d ∈ ds)) eqn:E.
  - apply bool_decide_eq_true in E. split; [by right|].
    intros [->|H]; assumption.
  - rewrite elem_of_union, elem_of_singleton. tauto.
Qed.

(** The two ways the save block ends: the limit is exceeded and the oldest
    entry leaves deque and disk, or the new entry simply joins. *)
Lemma save_checkpoint_cases (st st' : state) :
  save st = Ok st' ->
  iter st' = iter st /\ eval_begin_iters st' = eval_begin_iters st /\
  (((k < Z.of_nat (length (save_models st)) + 1)%Z /\ (0 < k)%Z /\
    exists oldest rest,
      save_models st ++ [csd (iter st)] = oldest :: rest /\
      save_models st' = rest /\
      oldest ∈ ensure_dir (csd (iter st)) (dirs st) /\
      dirs st' = ensure_dir (csd (iter st)) (dirs st) ∖ {[ oldest ]}) \/
   (~ ((k < Z.of_nat (length (save_models st)) + 1)%Z /\ (0 < k)%Z) /\
    save_models st' = save_models st ++ [csd (iter st)] /\
    dirs st' = ensure_dir (csd (iter st)) (dirs st))).
Proof.
  unfold save_checkpoint. rewrite length_app. simpl length.
  replace (Z.of_nat (length (save_models st) + 1))
    with (Z.of_nat (length (save_models st)) + 1)%Z by lia.
  destruct (k <? Z.of_nat (length (save_models st)) + 1)%Z eqn:E1;
    [destruct (0 <? k)%Z eqn:E2|]; simpl.
  - apply Z.ltb_lt in E1, E2.
    destruct (save_models st ++ [csd (iter st)]) as [|oldest rest] eqn:Em;
      [discriminate|].
    unfold rmtree. destruct (bool_decide _) eqn:Ein; simpl; [|discriminate].
    apply bool_decide_eq_true in Ein.
    intros H. injection H as <-. simpl. split; [reflexivity|].
    split; [reflexivity|]. left. split; [exact E1|]. split; [exact E2|].
    exists oldest, rest. auto.
  - apply Z.ltb_ge in E2. intros H. injection H as <-. simpl.
    split; [reflexivity|]. split; [reflexivity|]. right.
    split; [lia|]. auto.
  - apply Z.ltb_ge in E1. intros H. injection H as <-. simpl.
    split; [reflexivity|]. split; [reflexivity|]. right.
    split; [lia|]. auto.
Qed.

(** A pass of the loop body is at most one save, then at most the creation
    of [best_model]. *)
Lemma iteration_cases (st st' : state) :
  pass st = Ok st' ->
  exists st1,
    (st1 = st \/ save st = Ok st1) /\
    iter st' = iter st1 /\ save_models st' = save_models st1 /\
    (dirs st' = dirs st1 \/ dirs st' = dirs st1 ∪ {[ best_model_dir cfg ]}).
Proof.
  unfold iteration, py_mod.
  destruct (Z.eqb (log_iters cfg) 0); [discriminate|].
  destruct (Z.eqb (save_interval cfg) 0); [discriminate|].
  cbn [mbind result_mbind result_bind]. unfold mbind, result_mbind.
  match goal with
  | |- context [result_bind (if ?b then _ else _) _] => destruct b
  end.
  - destruct (save st) as [st1|e] eqn:Es; cbn [result_bind]; [|discriminate].
    intros H. injection H as <-. simpl. exists st1.
    split; [by right|]. split; [reflexivity|]. split; [reflexivity|].
    destruct (_ && _); auto.
  - cbn [result_bind]. intros H. injection H as <-. simpl. exists st.
    split; [by left|]. split; [reflexivity|]. split; [reflexivity|].
    destruct (_ && _); auto.
Qed.

Lemma ensure_dir_union (d : string) (ds : gset string) :
  ensure_dir d ds = ds ∪ {[ d ]}.
Proof.
  apply set_eq. intros x.
  rewrite elem_of_ensure_dir, elem_of_union, elem_of_singleton. tauto.
Qed.

Lemma within_limit_save (st st' : state) :
  (0 < k)%Z -> within_limit cfg st -> save st = Ok st' -> within_limit cfg st'.
Proof.
  unfold within_limit. intros Hk Hl Hs.
  destruct (save_checkpoint_cases st st' Hs)
    as (_ & _ & [(_ & _ & oldest & rest & Hm & -> & _)|(Hno & -> & _)]).
  - apply (f_equal length) in Hm. rewrite length_app in Hm. simpl in Hm. lia.
  - rewrite length_app. simpl. lia.
Qed.

Lemma within_limit_pass (st st' : state) :
  (0 < k)%Z -> within_limit cfg st -> pass (tick st) = Ok st' ->
  within_limit cfg st'.
Proof.
  intros Hk Hl Hp.
  destruct (iteration_cases (tick st) st' Hp) as (st1 & [->|Hs] & _ & Hm & _);
    unfold within_limit; rewrite Hm.
  - exact Hl.
  - by apply (within_limit_save (tick st) st1 Hk Hl).
Qed.

(** The deque with the new entry, before the limit is applied. *)
Lemma appended_deque (start : Z) (st : state) :
  retained cfg start st ->
  let cur := csd (iter st + 1) in
  let models := save_models st ++ [cur] in
  NoDup models /\
  (forall d, d ∈ models -> d ∈ ensure_dir cur (dirs st)) /\
  (forall d, d ∈ ensure_dir cur (dirs st) -> is_checkpoint_dir cfg d ->
             d ∈ models) /\
  (forall d, d ∈ models ->
     exists i, (start < i <= iter st + 1)%Z /\ d = csd i).
Proof.
  intros [Hs Hd He Hn Hi] cur models. subst cur models. split; [|split; [|split]].
  - apply NoDup_app. split; [exact Hn|]. split; [|apply NoDup_singleton].
    intros d Hin Hcur. apply list_elem_of_singleton in Hcur. subst d.
    destruct (Hi _ Hin) as (i & Hrange & Heq).
    apply current_save_dir_inj in Heq. lia.
  - intros d Hin. apply elem_of_ensure_dir.
    apply elem_of_app in Hin as [Hin|Hin].
    + right. by apply He.
    + left. by apply list_elem_of_singleton in Hin.
  - intros d Hin Hc. apply elem_of_app.
    apply elem_of_ensure_dir in Hin as [->|Hin].
    + right. by apply list_elem_of_singleton.
    + left. by apply Hd.
  - intros d Hin. apply elem_of_app in Hin as [Hin|Hin].
    + destruct (Hi _ Hin) as (i & Hrange & Heq). exists i. split; [lia|done].
    + apply list_elem_of_singleton in Hin. exists (iter st + 1)%Z.
      split; [lia|done].
Qed.

(** From a retained state the save block goes through. *)
Lemma save_checkpoint_succeeds (start : Z) (st : state) :
  retained cfg start st -> exists st', save (tick st) = Ok st'.
Proof.
  intros Hr. destruct (appended_deque start st Hr) as (_ & Hex & _).
  unfold save_checkpoint. cbn [tick iter save_models dirs eval_begin_iters].
  destruct (_ && _); [|eexists; reflexivity].
  destruct (save_models st ++ [csd (iter st + 1)]) as [|oldest rest] eqn:Em.
  - by apply app_nil in Em as [_ ?].
  - unfold rmtree. rewrite bool_decide_eq_true_2.
    + eexists. reflexivity.
    + apply Hex. apply list_elem_of_here.
Qed.

Lemma retained_save (start : Z) (st st' : state) :
  retained cfg start st -> save (tick st) = Ok st' -> retained cfg start st'.
Proof.
  intros Hr Hs.
  destruct (appended_deque start st Hr) as (Hnd & Hex & Hdisk & Hit).
  pose proof (ret_start _ _ _ Hr) as Hstart.
  destruct (save_checkpoint_cases _ _ Hs) as (Hiter & _ & Hcase).
  cbn [tick iter save_models dirs eval_begin_iters] in Hiter, Hcase.
  destruct Hcase as [(_ & _ & oldest & rest & Hm & Hsm & _ & Hds)|(_ & Hsm & Hds)].
  - rewrite Hm in Hnd, Hex, Hdisk, Hit.
    apply NoDup_cons in Hnd as [Hfirst Hnd].
    constructor; rewrite ?Hiter, ?Hsm, ?Hds.
    + lia.
    + intros d Hin Hc. apply elem_of_difference in Hin as [Hin Hne].
      specialize (Hdisk d Hin Hc).
      apply elem_of_cons in Hdisk as [->|?]; [|done].
      exfalso. apply Hne. by apply elem_of_singleton.
    + intros d Hin. apply elem_of_difference. split.
      * apply Hex. by apply list_elem_of_further.
      * intros Heq. apply elem_of_singleton in Heq. by subst d.
    + exact Hnd.
    + intros d Hin. apply Hit. by apply list_elem_of_further.
  - constructor; rewrite ?Hiter, ?Hsm, ?Hds; [lia|done..].
Qed.

Lemma retained_pass (start : Z) (st st' : state) :
  retained cfg start st -> pass (tick st) = Ok st' -> retained cfg start st'.
Proof.
  intros Hr Hp.
  destruct (iteration_cases _ _ Hp) as (st1 & Hst1 & Hiter & Hsm & Hds).
  assert (Hr1 : retained cfg start st1).
  { destruct Hst1 as [->|Hs]; [|by apply (retained_save start st)].
    destruct Hr as [Hs Hd He Hn Hi]. constructor; simpl; try done; [lia|].
    intros d Hin. destruct (Hi d Hin) as (i & ? & ?). exists i. split; [lia|done]. }
  destruct Hr1 as [Hs Hd He Hn Hi].
  constructor; rewrite ?Hiter, ?Hsm; try done.
  - intros d Hin Hc. apply Hd; [|done].
    destruct Hds as [->| ->] in Hin; [done|].
    apply elem_of_union in Hin as [?|Hin]; [done|].
    apply elem_of_singleton in Hin. subst d.
    by destruct best_model_not_checkpoint.
  - intros d Hin. destruct Hds as [->| ->]; [by apply He|].
    apply elem_of_union. left. by apply He.
Qed.

Lemma retained_entry (start : Z) (disk : gset string) (eb : option Z) :
  fresh cfg disk -> retained cfg start (entry cfg start disk eb).
Proof.
  intros Hfresh. constructor; simpl.
  - lia.
  - intros d Hin Hc. exfalso.
    apply elem_of_ensure_dir in Hin as [->|Hin].
    + by apply save_dir_not_checkpoint.
    + by apply (Hfresh d).
  - intros d Hin. inversion Hin.
  - constructor.
  - intros d Hin. inversion Hin.
Qed.

Lemma within_limit_reachable (s0 st : state) :
  (0 < k)%Z -> within_limit cfg s0 -> reachable improves cfg s0 st ->
  within_limit cfg st.
Proof.
  intros Hk H0 Hr. induction Hr as [|st st' _ IH _ Hp]; [exact H0|].
  by apply (within_limit_pass st st' Hk IH).
Qed.

Lemma retained_reachable (start : Z) (s0 st : state) :
  retained cfg start s0 -> reachable improves cfg s0 st ->
  retained cfg start st.
Proof.
  intros H0 Hr. induction Hr as [|st st' _ IH _ Hp]; [exact H0|].
  by apply (retained_pass start st st' IH).
Qed.

Local Abbreviation settled := (settled improves cfg).

Lemma for_loader_settled (s0 : state) (n : nat) (st st' : state) :
  reachable improves cfg s0 st ->
  for_loader improves cfg n st = Ok st' -> settled s0 st'.
Proof.
  revert st. induction n as [|n IH]; intros st Hr; simpl.
  - intros H. injection H as <-. exists st. auto.
  - destruct (iters cfg <? iter st + 1)%Z eqn:E.
    + intros H. injection H as <-. exists st. split; [exact Hr|].
      right. split; [reflexivity|]. simpl. by apply Z.ltb_lt.
    + apply Z.ltb_ge in E. unfold mbind, result_mbind.
      destruct (pass (tick st)) as [st1|e] eqn:Ep; cbn [result_bind];
        [|discriminate].
      apply IH. by apply (reach_pass improves cfg s0 st st1).
Qed.

Lemma while_loop_settled (s0 : state) (fuel : nat) (st st' : state) :
  settled s0 st ->
  while_loop improves cfg fuel st = Some (Ok st') -> settled s0 st'.
Proof.
  revert st. induction fuel as [|fuel IH]; intros st Hs; simpl.
  - destruct (iter st <? iters cfg)%Z; [discriminate|].
    intros H. by injection H as <-.
  - destruct (iter st <? iters cfg)%Z eqn:E.
    + apply Z.ltb_lt in E.
      destruct (for_loader improves cfg (batches cfg) st) as [st1|e] eqn:Ef;
        [|discriminate].
      apply IH. destruct Hs as (st0 & Hr & [->|[-> Hbreak]]); [|lia].
      by apply (for_loader_settled s0 (batches cfg) st0 st1).
    + intros H. by injection H as <-.
Qed.

(** C10. With [keep_checkpoint_max > 0] the deque of saved checkpoints never
    holds more than [keep_checkpoint_max] directories, after any pass of the
    loop and after any save; a save that finds the deque full removes its
    oldest entry, from deque and disk, and keeps the others in order.  When
    the run starts without checkpoint directories under [save_dir], the
    save never fails and the checkpoint directories on disk are those of
    the deque, so there are at most [keep_checkpoint_max] of them. *)
Theorem checkpoints_kept_bounded_fifo (start : Z) (disk : gset string)
    (eb : option Z) (st : state) :
  (0 < k)%Z ->
  reachable improves cfg (entry cfg start disk eb) st ->
  within_limit cfg st /\
  (forall st', save (tick st) = Ok st' ->
     within_limit cfg st' /\
     ((Z.of_nat (length (save_models st)) < k)%Z ->
        save_models st' = save_models st ++ [csd (iter st + 1)] /\
        dirs st' = dirs st ∪ {[ csd (iter st + 1) ]}) /\
     (Z.of_nat (length (save_models st)) = k ->
        exists oldest rest,
          save_models st = oldest :: rest /\
          save_models st' = rest ++ [csd (iter st + 1)] /\
          dirs st' = (dirs st ∪ {[ csd (iter st + 1) ]}) ∖ {[ oldest ]})) /\
  (fresh cfg disk ->
     (exists st', save (tick st) = Ok st') /\
     (forall d, d ∈ dirs st -> is_checkpoint_dir cfg d -> d ∈ save_models st) /\
     (forall l : list string,
        NoDup l ->
        (forall d, d ∈ l -> d ∈ dirs st /\ is_checkpoint_dir cfg d) ->
        (Z.of_nat (length l) <= k)%Z)).
Proof.
  intros Hk Hr.
  assert (Hlim : within_limit cfg st).
  { apply (within_limit_reachable _ _ Hk) in Hr; [exact Hr|].
    unfold within_limit. simpl. lia. }
  split; [exact Hlim|]. split.
  - intros st' Hs. split; [by apply (within_limit_save (tick st) st' Hk Hlim)|].
    destruct (save_checkpoint_cases _ _ Hs) as (_ & _ & Hcase).
    cbn [tick iter save_models dirs eval_begin_iters] in Hcase.
    rewrite ensure_dir_union in Hcase. unfold within_limit in Hlim.
    destruct Hcase as [(Hfull & _ & oldest & rest & Hm & Hsm & _ & Hds)
                      |(Hno & Hsm & Hds)]; split.
    + intros Hlt. lia.
    + intros Heq. destruct (save_models st) as [|o r] eqn:Esm.
      * simpl in Heq. lia.
      * simpl in Hm. injection Hm as <- <-. exists o, r. auto.
    + intros _. auto.
    + intros Heq. lia.
  - intros Hfresh.
    pose proof (retained_reachable start _ _
                  (retained_entry start disk eb Hfresh) Hr) as Hret.
    split; [by apply (save_checkpoint_succeeds start)|].
    split; [apply (ret_disk _ _ _ Hret)|].
    intros l Hnd Hl. unfold within_limit in Hlim.
    assert (length l <= length (save_models st))%nat; [|lia].
    apply submseteq_length, NoDup_submseteq; [exact Hnd|].
    intros d Hd. destruct (Hl d Hd) as [Hin Hc].
    by apply (ret_disk _ _ _ Hret).
Qed.

End TrainFacts.

(** The loop as a whole: whatever state [train] ends in respects the
    limit. *)
Lemma train_final_within_limit improves cfg start disk eb fuel st :
  (0 < Train.keep_checkpoint_max cfg)%Z ->
  Train.train improves cfg start disk eb fuel = Some (Ok st) ->
  Train.within_limit cfg st.
Proof.
  intros Hk Hrun. unfold Train.train in Hrun.
  apply (while_loop_settled improves cfg (Train.entry cfg start disk eb)) in Hrun.
  - destruct Hrun as (st0 & Hr & Hst).
    apply (within_limit_reachable improves cfg _ _ Hk) in Hr.
    + destruct Hst as [->|[-> _]]; exact Hr.
    + unfold Train.within_limit. simpl. lia.
  - exists (Train.entry cfg start disk eb). split; [constructor|by left].
Qed.

(** The run of the demo configuration completes, with the last two
    checkpoints kept. *)
Lemma train_demo_run :
  exists st,
    Train.train Train.demo_improves Train.demo_cfg 0 ∅ None 10 = Some (Ok st) /\
    Train.save_models st = ["output/iter_6"; "output/iter_7"].
Proof. eexists. split; vm_compute; reflexivity. Qed.

Lemma demo_state_reachable :
  Train.reachable Train.demo_improves Train.demo_cfg
    (Train.entry Train.demo_cfg 0 ∅ None) Train.demo_state.
Proof.
  eapply Train.reach_pass;
    [eapply Train.reach_pass;
      [eapply Train.reach_pass;
        [eapply Train.reach_pass; [apply Train.reach_entry|..]|..]|..]|..].
  - vm_compute. discriminate.
  - reflexivity.
  - vm_compute. discriminate.
  - reflexivity.
  - vm_compute. discriminate.
  - reflexivity.
  - vm_compute. discriminate.
  - vm_compute. reflexivity.
Defined.

Lemma checkpoints_kept_bounded_fifo_witness :
  Train.within_limit Train.demo_cfg Train.demo_state /\
  exists st',
    Train.save_checkpoint Train.demo_cfg (Train.tick Train.demo_state) = Ok st' /\
    Train.save_models st' = ["output/iter_4"; "output/iter_5"].
Proof.
  destruct (checkpoints_kept_bounded_fifo Train.demo_improves Train.demo_cfg
              0 ∅ None Train.demo_state) as (Hlim & Hsave & Hdisk).
  - reflexivity.
  - exact demo_state_reachable.
  - split; [exact Hlim|].
    destruct Hdisk as ((st' & Hs) & _).
    + intros d Hd. inversion Hd.
    + exists st'. split; [exact Hs|].
      destruct (Hsave st' Hs) as (_ & _ & Hfull).
      destruct (Hfull eq_refl) as (oldest & rest & Hm & -> & _).
      vm_compute in Hm. injection Hm as <- <-. vm_compute. reflexivity.
Defined.

(** ** The predictor step *)

Section StepFacts.

Import Step.

Context {Image Mask ZoomState : Type}.
Variable image_shape : Image -> Z * Z.
Variable zoom_transform :
  option ZoomState -> Image -> list ClickPoint -> option ZoomState.
Variable crop_image : Image -> option ZoomState -> Image.
Variable adapter_run : Image -> list ClickPoint -> option Mask -> result Mask.
Variable composite : option ZoomState -> Mask -> option Mask -> Mask.

Local Abbreviation add_click_ :=
  (add_click image_shape zoom_transform crop_image adapter_run composite).
Local Abbreviation replay_ :=
  (replay image_shape zoom_transform crop_image adapter_run composite).
Local Abbreviation undo_click_ :=
  (undo_click image_shape zoom_transform crop_image adapter_run composite).
Local Abbreviation run_step_ :=
  (run_step image_shape zoom_transform crop_image adapter_run composite).
Local Abbreviation adapter_call_ :=
  (adapter_call zoom_transform crop_image adapter_run).

(** A click that fails leaves the state as it was. *)
Lemma add_click_failure (p p' : Predictor) r c positive e :
  add_click_ p r c positive = (Raise e, p') -> p' = p.
Proof.
  unfold add_click. destruct (image p) as [img|]; [|congruence].
  destruct (negb (in_bounds image_shape img r c)); [congruence|].
  destruct (adapter_call _ _ _ _ _ _ _ _); [discriminate|congruence].
Qed.

(** A click within bounds on which the adapter fails: the adapter's error
    comes back and the state is untouched. *)
Lemma add_click_adapter_failure (p : Predictor) (img : Image) r c positive e :
  image p = Some img ->
  in_bounds image_shape img r c = true ->
  adapter_call_ p img r c positive = Raise e ->
  add_click_ p r c positive = (Raise e, p).
Proof.
  intros Hi Hb Ha. unfold add_click. rewrite Hi, Hb. simpl.
  by rewrite Ha.
Qed.

(** A click keeps the loaded image. *)
Lemma add_click_image (p p' : Predictor) r c positive (m : result Mask) :
  add_click_ p r c positive = (m, p') -> image p' = image p.
Proof.
  unfold add_click. destruct (image p) as [img|] eqn:Hi; [|congruence].
  destruct (negb (in_bounds image_shape img r c)); [congruence|].
  destruct (adapter_call _ _ _ _ _ _ _ _); intros H; injection H as _ <-;
    simpl; congruence.
Qed.

(** So does a replay. *)
Lemma replay_image (clicks : list ClickPoint) (p q : Predictor) :
  replay_ clicks p = Ok q -> image q = image p.
Proof.
  revert p. induction clicks as [|c rest IH]; intros p; simpl.
  - congruence.
  - destruct (add_click_ p (row c) (col c) (is_positive c)) as [[m|e] p']
      eqn:Ea; [|discriminate].
    intros Hr. rewrite (IH _ Hr). by apply add_click_image in Ea.
Qed.

(** A replay runs its clicks in order: the second part starts from the
    state the first part leaves, and a failure of the first part is the
    failure of the whole. *)
Lemma replay_app (pre rest : list ClickPoint) (p : Predictor) :
  replay_ (pre ++ rest) p =
    match replay_ pre p with
    | Ok q => replay_ rest q
    | Raise e => Raise e
    end.
Proof.
  revert p. induction pre as [|c pre IH]; intros p; simpl; [reflexivity|].
  destruct (add_click_ p (row c) (col c) (is_positive c)) as [[m|e] p'];
    [apply IH|reflexivity].
Qed.

(** Replaying at least one click, all within bounds, through an adapter
    that always fails. *)
Lemma replay_adapter_failure (clicks : list ClickPoint) (p : Predictor)
    (img : Image) e :
  (forall i cl m, adapter_run i cl m = Raise e) ->
  image p = Some img ->
  clicks <> [] ->
  (forall c, c ∈ clicks -> in_bounds image_shape img (row c) (col c) = true) ->
  replay_ clicks p = Raise e.
Proof.
  intros Hfail Hi Hne Hb. destruct clicks as [|c rest]; [contradiction|].
  simpl.
  rewrite (add_click_adapter_failure p img (row c) (col c) (is_positive c) e);
    [reflexivity|exact Hi| |apply Hfail].
  apply Hb, list_elem_of_here.
Qed.

(** An undo whose replay reaches, after the clicks [pre], a click within
    bounds on which the adapter fails: the adapter's error comes back and
    the state is untouched. *)
Lemma undo_click_adapter_failure (p q : Predictor) (img : Image)
    (pre post : list ClickPoint) (c : ClickPoint) e :
  image p = Some img ->
  removelast (click_set p) = pre ++ c :: post ->
  replay_ pre (reset p) = Ok q ->
  in_bounds image_shape img (row c) (col c) = true ->
  adapter_call_ q img (row c) (col c) (is_positive c) = Raise e ->
  undo_click_ p = (Raise e, p).
Proof.
  intros Hi Hrl Hq Hb Ha. unfold undo_click.
  destruct (click_set p) as [|c0 cs] eqn:Ec.
  - simpl in Hrl. by destruct pre.
  - rewrite Hrl, replay_app, Hq. cbn [replay].
    assert (Hiq : image q = Some img).
    { rewrite (replay_image _ _ _ Hq). exact Hi. }
    by rewrite (add_click_adapter_failure q img _ _ _ e Hiq Hb Ha).
Qed.

(** C7. A step that fails leaves the Predictor, and so its
    [previous_mask], exactly as before the step; and whenever the
    Inference Adapter fails in a step, the step fails with the adapter's own
    error and the Predictor is the one before the step.  The adapter is
    called once by [add_click], for a click within bounds, and once for
    each click an undo replays, as long as the calls before succeeded: the
    failure may be that of the one call of a click, that of any call of the
    replay (after the clicks [pre] have been replayed to the state [q], on
    the click [c]), or that of an adapter failing on every call. *)
Theorem failed_step_is_atomic (s : step) (p : Predictor) :
  (forall e p',
     run_step_ s p = (Raise e, p') ->
     p' = p /\
     previous_mask (prediction p') = previous_mask (prediction p)) /\
  (forall e img r c positive,
     s = AddClick r c positive ->
     image p = Some img ->
     in_bounds image_shape img r c = true ->
     adapter_call_ p img r c positive = Raise e ->
     run_step_ s p = (Raise e, p)) /\
  (forall e img pre c post q,
     s = UndoClick ->
     image p = Some img ->
     removelast (click_set p) = pre ++ c :: post ->
     replay_ pre (reset p) = Ok q ->
     in_bounds image_shape img (row c) (col c) = true ->
     adapter_call_ q img (row c) (col c) (is_positive c) = Raise e ->
     run_step_ s p = (Raise e, p)) /\
  (forall e,
     (forall i cl m, adapter_run i cl m = Raise e) ->
     invokes_adapter image_shape s p ->
     run_step_ s p = (Raise e, p)).
Proof.
  split; [|split; [|split]].
  - intros e p' Hrun.
    assert (p' = p); [|by subst].
    destruct s as [r c positive|]; simpl in Hrun.
    + destruct (add_click_ p r c positive) as [[m|e'] q] eqn:Ea;
        [discriminate|].
      injection Hrun as _ <-. by apply add_click_failure in Ea.
    + unfold undo_click in Hrun. destruct (click_set p); [congruence|].
      destruct (replay _ _ _ _ _ _ _); [discriminate|congruence].
  - intros e img r c positive -> Hi Hb Ha. simpl.
    by rewrite (add_click_adapter_failure p img r c positive e Hi Hb Ha).
  - intros e img pre c post q -> Hi Hrl Hq Hb Ha. simpl.
    exact (undo_click_adapter_failure p q img pre post c e Hi Hrl Hq Hb Ha).
  - intros e Hfail Hinv. destruct s as [r c positive|]; simpl in *.
    + destruct (image p) as [img|] eqn:Hi; [|contradiction].
      rewrite (add_click_adapter_failure p img r c positive e Hi Hinv);
        [reflexivity|apply Hfail].
    + destruct (image p) as [img|] eqn:Hi; [|contradiction].
      destruct Hinv as [Hne Hb]. unfold undo_click.
      destruct (click_set p) as [|c0 cs] eqn:Ec; [by destruct Hne|].
      rewrite (replay_adapter_failure _ (reset p) img e Hfail Hi Hne Hb).
      reflexivity.
Qed.

End StepFacts.

Lemma failed_step_is_atomic_witness :
  (Step.Demo.run (Step.AddClick 20 30 false) Step.Demo.active
     = (Raise Step.Demo.failure, Step.Demo.active) /\
   Step.previous_mask (Step.prediction Step.Demo.active) = Some 5%nat) /\
  (Step.Demo.run Step.UndoClick Step.Demo.active3
     = (Raise Step.Demo.failure, Step.Demo.active3) /\
   Step.previous_mask (Step.prediction Step.Demo.active3) = Some 9%nat).
Proof.
  split; (split; [|reflexivity]).
  - destruct (failed_step_is_atomic (fun img : Z * Z => img)
                Step.Demo.zoom_transform (fun img _ => img)
                Step.Demo.adapter_run (fun _ (m : nat) _ => m)
                (Step.AddClick 20 30 false) Step.Demo.active)
      as (_ & H & _).
    apply (H Step.Demo.failure (100, 100)%Z 20%Z 30%Z false); reflexivity.
  - destruct (failed_step_is_atomic (fun img : Z * Z => img)
                Step.Demo.zoom_transform (fun img _ => img)
                Step.Demo.adapter_run (fun _ (m : nat) _ => m)
                Step.UndoClick Step.Demo.active3)
      as (_ & _ & H & _).
    eapply (H Step.Demo.failure (100, 100)%Z [Step.Demo.click 50 50 true 0]
              (Step.Demo.click 20 30 false 1) []); reflexivity.
Defined.

(** * Further properties of the embedded code *)

(** ** [get_predictor]: order of construction, clashes, forwarding *)

Section GetPredictorMore.

Import Predictor.

Context {Net ZoomInT PredictorT : Type}.
Variable ZoomIn_init : kwargs -> result ZoomInT.
Variable BasePredictor_init :
  Net -> option ZoomInT -> bool -> kwargs -> result PredictorT.

Local Abbreviation gp := (get_predictor ZoomIn_init BasePredictor_init).
Local Abbreviation mk_zoom := (make_zoom_in (Net := Net) ZoomIn_init).

(** The [ZoomIn] transform is constructed before the mode is looked at: a
    failure of its constructor is what [get_predictor] raises, in every
    mode, and in an unsupported mode a [ZoomIn] has been constructed by the
    time the [NotImplementedError] is raised. *)
Theorem zoom_in_constructed_before_mode_test net brs_mode wf kw pp :
  (forall e, ZoomIn_init kw = Raise e ->
     gp net brs_mode wf (Some (Some kw)) pp = ([NewZoomIn kw], Raise e)) /\
  (forall z, ZoomIn_init kw = Ok z -> brs_mode <> "NoBRS" ->
     gp net brs_mode wf (Some (Some kw)) pp
       = ([NewZoomIn kw],
          Raise (NotImplementedError "Just support NoBRS mode"))).
Proof.
  split.
  - intros e He. rewrite get_predictor_stages. simpl.
    unfold make_zoom_in, new_ZoomIn, bind. by rewrite He.
  - intros z Hz Hmode. rewrite get_predictor_stages. simpl.
    unfold make_zoom_in, new_ZoomIn, bind, ret. rewrite Hz. simpl.
    apply String.eqb_neq in Hmode. by rewrite Hmode.
Qed.

(** A [predictor_params] dictionary that names [with_flip] or [zoom_in]
    clashes with the explicit keywords of the call: in ['NoBRS'] mode
    [get_predictor] raises [TypeError] and the [BasePredictor] constructor
    is not run. *)
Theorem predictor_params_keyword_clash net wf zp pp z :
  outcome (mk_zoom (arg_or zoom_in_params_default zp)) = Ok z ->
  is_Some (supplied pp "with_flip") \/ is_Some (supplied pp "zoom_in") ->
  (exists msg, outcome (gp net "NoBRS" wf zp pp) = Raise (TypeError msg)) /\
  (forall n z' f kw',
     NewBasePredictor n z' f kw' ∉ calls (gp net "NoBRS" wf zp pp)).
Proof.
  intros Hz Hclash. rewrite get_predictor_stages.
  destruct (mk_zoom _) as [log [z0|e]] eqn:Ez; unfold outcome in Hz;
    simpl in Hz; [|discriminate].
  injection Hz as ->. simpl.
  assert (Hlog : forall n z' f kw', NewBasePredictor n z' f kw' ∉ log).
  { intros n z' f kw' Hin.
    pose proof (make_zoom_in_calls (Net := Net) ZoomIn_init
                  (arg_or zoom_in_params_default zp)) as Hc.
    rewrite Ez in Hc. unfold calls in Hc. simpl in Hc. rewrite Hc in Hin.
    destruct (arg_or zoom_in_params_default zp).
    - apply list_elem_of_singleton in Hin. discriminate.
    - inversion Hin. }
  assert (Hm : is_Some (merged_params pp !! "with_flip")
               \/ is_Some (merged_params pp !! "zoom_in")).
  { unfold supplied, merged_params, dict_ior in *.
    destruct (arg_or predictor_params_default pp) as [d|].
    - destruct Hclash as [[v Hv]|[v Hv]]; [left|right]; exists v;
        by apply lookup_union_Some_l.
    - destruct Hclash as [[v Hv]|[v Hv]]; discriminate. }
  unfold new_BasePredictor, outcome, calls.
  destruct (decide (is_Some (merged_params pp !! "zoom_in"))) as [|Hnz]; simpl.
  - split; [eexists; reflexivity|]. intros n z' f kw'.
    rewrite app_nil_r. apply Hlog.
  - destruct (decide (is_Some (merged_params pp !! "with_flip"))) as [|Hnf];
      simpl.
    + split; [eexists; reflexivity|]. intros n z' f kw'.
      rewrite app_nil_r. apply Hlog.
    + destruct Hm; contradiction.
Qed.

(** The dictionary that [get_predictor] unpacks into its [BasePredictor]
    call holds every entry of the caller's [predictor_params] unchanged,
    and nothing else but [optimize_after_n_clicks]; when [predictor_params]
    is omitted or [None] it is that one entry.  In ['NoBRS'] mode, the
    [ZoomIn] stage done and neither [zoom_in] nor [with_flip] among the
    caller's keys, the call is made, after those of the [ZoomIn] stage, and
    its result is what [get_predictor] returns. *)
Theorem predictor_params_forwarded net brs_mode wf zp :
  (forall d n z f kw,
     NewBasePredictor n z f kw
       ∈ calls (gp net brs_mode wf zp (Some (Some d))) ->
     forall key,
       (forall v, d !! key = Some v -> kw !! key = Some v) /\
       (key <> "optimize_after_n_clicks" -> kw !! key = d !! key)) /\
  (forall pp n z f kw,
     pp = None \/ pp = Some None ->
     NewBasePredictor n z f kw ∈ calls (gp net brs_mode wf zp pp) ->
     kw = {[ "optimize_after_n_clicks" := PyInt 1 ]}) /\
  (forall d z,
     brs_mode = "NoBRS" ->
     outcome (mk_zoom (arg_or zoom_in_params_default zp)) = Ok z ->
     d !! "zoom_in" = None ->
     d !! "with_flip" = None ->
     exists kw,
       calls (gp net brs_mode wf zp (Some (Some d)))
         = calls (mk_zoom (arg_or zoom_in_params_default zp))
           ++ [NewBasePredictor net z (arg_or with_flip_default wf) kw] /\
       outcome (gp net brs_mode wf zp (Some (Some d)))
         = BasePredictor_init net z (arg_or with_flip_default wf) kw).
Proof.
  assert (Hcall : forall pp n z f kw,
            NewBasePredictor n z f kw ∈ calls (gp net brs_mode wf zp pp) ->
            kw = merged_params pp).
  { intros pp n z f kw Hin.
    destruct (get_predictor_calls ZoomIn_init BasePredictor_init
                net brs_mode wf zp pp) as (rest & Hc & Hrest).
    rewrite Hc, (make_zoom_in_calls ZoomIn_init) in Hin.
    apply elem_of_app in Hin as [Hin|Hin].
    - destruct (arg_or zoom_in_params_default zp).
      + apply list_elem_of_singleton in Hin. discriminate.
      + inversion Hin.
    - destruct (Hrest _ Hin) as (z' & _ & _ & He). by injection He. }
  split; [|split].
  - intros d n z f kw Hin key. rewrite (Hcall _ _ _ _ _ Hin).
    unfold merged_params, dict_ior. simpl. split.
    + intros v Hv. by apply lookup_union_Some_l.
    + intros Hk. destruct (d !! key) as [v|] eqn:Hd.
      * by apply lookup_union_Some_l.
      * rewrite lookup_union_r by exact Hd. by apply lookup_singleton_ne.
  - intros pp n z f kw Hpp Hin. rewrite (Hcall _ _ _ _ _ Hin).
    by destruct Hpp as [-> | ->].
  - intros d z -> Hz Hd1 Hd2. exists (merged_params (Some (Some d))).
    apply (get_predictor_NoBRS ZoomIn_init BasePredictor_init); [exact Hz|].
    unfold no_clash, merged_params, dict_ior. simpl. split.
    + rewrite lookup_union_r by exact Hd1. by apply lookup_singleton_ne.
    + rewrite lookup_union_r by exact Hd2. by apply lookup_singleton_ne.
Qed.

(** [get_predictor] runs each constructor at most once, [ZoomIn] first:
    its calls are those of the [ZoomIn] stage, one when [zoom_in_params] is
    a dictionary and none when it is [None], followed by at most one
    [BasePredictor] call. *)
Theorem get_predictor_constructs_at_most_once net brs_mode wf zp pp :
  exists rest,
    calls (gp net brs_mode wf zp pp)
      = match arg_or zoom_in_params_default zp with
        | Some kw => [NewZoomIn kw]
        | None => []
        end ++ rest /\
    (rest = [] \/
     exists z, rest = [NewBasePredictor net z (arg_or with_flip_default wf)
                         (merged_params pp)]).
Proof.
  rewrite get_predictor_stages, <- (make_zoom_in_calls ZoomIn_init).
  destruct (mk_zoom _) as [log [z|e]]; unfold calls; simpl.
  - destruct (String.eqb brs_mode "NoBRS").
    + eexists. split; [reflexivity|]. unfold new_BasePredictor.
      repeat destruct (decide _); simpl; eauto.
    + exists []. rewrite app_nil_r. auto.
  - exists []. rewrite app_nil_r. auto.
Qed.

End GetPredictorMore.

Lemma zoom_in_constructed_before_mode_test_witness :
  Predictor.Demo.run 7%nat "f-BRS" None
      (Some (Some {[ "bogus" := PyInt 1 ]})) None
    = ([Predictor.NewZoomIn {[ "bogus" := PyInt 1 ]}],
       Raise (TypeError "unexpected keyword argument")) /\
  Predictor.Demo.run 7%nat "f-BRS" None
      (Some (Some {[ "target_size" := PyInt 400 ]})) None
    = ([Predictor.NewZoomIn {[ "target_size" := PyInt 400 ]}],
       Raise (NotImplementedError "Just support NoBRS mode")).
Proof.
  split.
  - apply (zoom_in_constructed_before_mode_test Predictor.Demo.ZoomIn_init
             Predictor.Demo.BasePredictor_init).
    vm_compute. reflexivity.
  - eapply (zoom_in_constructed_before_mode_test Predictor.Demo.ZoomIn_init
              Predictor.Demo.BasePredictor_init).
    + vm_compute. reflexivity.
    + discriminate.
Defined.

Lemma predictor_params_keyword_clash_witness :
  exists msg,
    Predictor.outcome
      (Predictor.Demo.run 7%nat "NoBRS" None None
         (Some (Some {[ "with_flip" := PyBool false ]})))
    = Raise (TypeError msg).
Proof.
  destruct (predictor_params_keyword_clash Predictor.Demo.ZoomIn_init
              Predictor.Demo.BasePredictor_init 7%nat None None
              (Some (Some {[ "with_flip" := PyBool false ]}))
              (Some {| Predictor.Demo.zoom_kw := ∅ |})) as [H _].
  - vm_compute. reflexivity.
  - left. exists (PyBool false). vm_compute. reflexivity.
  - exact H.
Defined.

Lemma predictor_params_forwarded_witness :
  exists kw,
    Predictor.calls
      (Predictor.Demo.run 7%nat "NoBRS" None None
         (Some (Some {[ "net_clicks_limit" := PyInt 8 ]})))
    = [Predictor.NewZoomIn ∅;
       Predictor.NewBasePredictor 7%nat
         (Some {| Predictor.Demo.zoom_kw := ∅ |}) true kw] /\
    kw !! "net_clicks_limit" = Some (PyInt 8).
Proof.
  destruct (predictor_params_forwarded Predictor.Demo.ZoomIn_init
              Predictor.Demo.BasePredictor_init 7%nat "NoBRS" None None)
    as (Hfwd & _ & Hmade).
  destruct (Hmade {[ "net_clicks_limit" := PyInt 8 ]}
              (Some {| Predictor.Demo.zoom_kw := ∅ |}))
    as (kw & Hcalls & _); [reflexivity|reflexivity|reflexivity|reflexivity|].
  exists kw. split; [exact Hcalls|].
  apply (Hfwd {[ "net_clicks_limit" := PyInt 8 ]} 7%nat
           (Some {| Predictor.Demo.zoom_kw := ∅ |}) true kw).
  - unfold Predictor.Demo.run. rewrite Hcalls.
    apply elem_of_app. right. apply list_elem_of_here.
  - reflexivity.
Defined.

(** ** [update_md5.py]: what is left alone, failure, running twice *)

Section UpdateMd5More.

Import PyString UpdateMd5.

Variable md5_hexdigest : list Byte.byte -> string.

Local Abbreviation digest_file b :=
  (File (String.list_byte_of_string (md5_hexdigest b))).
Local Abbreviation main_ := (main md5_hexdigest).

Lemma forallb_false_elem {A} (f : A -> bool) (l : list A) :
  forallb f l = false -> exists x, x ∈ l /\ f x = false.
Proof.
  induction l as [|a l IH]; simpl; [discriminate|].
  destruct (f a) eqn:Ea; simpl.
  - intros H. destruct (IH H) as (x & Hx & Hf). exists x.
    split; [by apply list_elem_of_further|exact Hf].
  - intros _. exists a. split; [apply list_elem_of_here|exact Ea].
Qed.

(** The run of the script on a tree without a directory in the way. *)
Lemma main_spec (t : tree) :
  no_dir_in_the_way t = true ->
  exists t' : tree,
    main_ t = Ok t' /\
    (forall p b, is_weight t p -> t !! p = Some (File b) ->
                 t' !! md5_path_of p = Some (digest_file b)) /\
    (forall q, (forall p, is_weight t p -> q <> md5_path_of p) ->
               t' !! q = t !! q).
Proof.
  intros Hclean. unfold no_dir_in_the_way in Hclean.
  rewrite forallb_forall in Hclean.
  destruct (for_each_spec md5_hexdigest t (glob t) (NoDup_glob t)) with (t := t)
    as (t' & Hrun & Hdig & Hother).
  - intros p Hp. pose proof (Hclean p (proj1 (list_elem_of_In _ _) Hp)) as Hc.
    apply elem_of_glob in Hp as [Hm [n Hn]]. split; [exact Hm|].
    unfold is_dir in Hc. rewrite Hn in Hc. destruct n as [b|]; [by exists b|].
    discriminate.
  - reflexivity.
  - intros p Hp Hd. pose proof (Hclean p (proj1 (list_elem_of_In _ _) Hp)) as Hc.
    apply andb_true_iff in Hc as [_ Hc]. unfold is_dir in Hc.
    rewrite Hd in Hc. discriminate.
  - exists t'. split; [exact Hrun|]. split.
    + intros p b Hp Hb. apply Hdig; [by apply elem_of_glob|exact Hb].
    + intros q Hq. apply Hother. intros p Hp. apply Hq. by apply elem_of_glob.
Qed.

(** The loop over entries one of which is, or has its sidecar path taken
    by, a directory. *)
Lemma for_each_raises (t0 : tree) (l : list string) :
  NoDup l ->
  (forall p, p ∈ l -> glob_match p = true /\ is_Some (t0 !! p)) ->
  (exists p, p ∈ l /\
     negb (is_dir t0 p) && negb (is_dir t0 (md5_path_of p)) = false) ->
  forall t : tree,
  (forall p, p ∈ l -> t !! p = t0 !! p) ->
  (forall p, p ∈ l -> is_dir t (md5_path_of p) = is_dir t0 (md5_path_of p)) ->
  exists q, for_each md5_hexdigest l t = Raise (IsADirectoryError q).
Proof.
  induction l as [|p l IH]; intros Hnd Hl (bad & Hbad & Hdirbad) t Hsame Hside.
  - inversion Hbad.
  - apply NoDup_cons in Hnd as [Hp_notin Hnd].
    destruct (Hl p (list_elem_of_here _ _)) as [Hmp [n Hn]].
    pose proof (Hsame p (list_elem_of_here _ _)) as Htp. rewrite Hn in Htp.
    simpl. unfold body, read_bytes. rewrite Htp.
    destruct n as [b|]; [|by eexists].
    unfold write_text.
    destruct (t !! md5_path_of p) as [[c|]|] eqn:Ew; [|by eexists|].
    + apply (IH Hnd (fun q Hq => Hl q (list_elem_of_further _ _ _ Hq))).
      * exists bad. split; [|exact Hdirbad].
        apply elem_of_cons in Hbad as [->|?]; [|done]. exfalso.
        pose proof (Hside p (list_elem_of_here _ _)) as Hs.
        unfold is_dir in Hdirbad, Hs. rewrite Hn in Hdirbad.
        rewrite Ew in Hs. rewrite <- Hs in Hdirbad. discriminate.
      * intros q Hq. rewrite lookup_insert_ne.
        -- apply Hsame. by apply list_elem_of_further.
        -- apply md5_path_of_not_weight. apply (Hl q).
           by apply list_elem_of_further.
      * intros q Hq. rewrite <- (Hside q (list_elem_of_further _ _ _ Hq)).
        unfold is_dir. rewrite lookup_insert_ne; [reflexivity|].
        intros E. apply md5_path_of_inj in E; [|exact Hmp|].
        -- subst q. contradiction.
        -- apply (Hl q). by apply list_elem_of_further.
    + apply (IH Hnd (fun q Hq => Hl q (list_elem_of_further _ _ _ Hq))).
      * exists bad. split; [|exact Hdirbad].
        apply elem_of_cons in Hbad as [->|?]; [|done]. exfalso.
        pose proof (Hside p (list_elem_of_here _ _)) as Hs.
        unfold is_dir in Hdirbad, Hs. rewrite Hn in Hdirbad.
        rewrite Ew in Hs. rewrite <- Hs in Hdirbad. discriminate.
      * intros q Hq. rewrite lookup_insert_ne.
        -- apply Hsame. by apply list_elem_of_further.
        -- apply md5_path_of_not_weight. apply (Hl q).
           by apply list_elem_of_further.
      * intros q Hq. rewrite <- (Hside q (list_elem_of_further _ _ _ Hq)).
        unfold is_dir. rewrite lookup_insert_ne; [reflexivity|].
        intros E. apply md5_path_of_inj in E; [|exact Hmp|].
        -- subst q. contradiction.
        -- apply (Hl q). by apply list_elem_of_further.
Qed.

Lemma main_raises (t : tree) :
  no_dir_in_the_way t = false ->
  exists q, main_ t = Raise (IsADirectoryError q).
Proof.
  intros Hdirty. unfold no_dir_in_the_way in Hdirty.
  apply forallb_false_elem in Hdirty as (bad & Hbad & Hdir).
  apply (for_each_raises t (glob t) (NoDup_glob t)).
  - intros p Hp. by apply elem_of_glob in Hp.
  - by exists bad.
  - reflexivity.
  - reflexivity.
Qed.

Lemma main_ok_clean (t t' : tree) :
  main_ t = Ok t' -> no_dir_in_the_way t = true.
Proof.
  intros Hrun. destruct (no_dir_in_the_way t) eqn:E; [reflexivity|].
  destruct (main_raises t E) as [q Hq]. congruence.
Qed.

(** When a directory has a name that matches [*/*.pdparams], or sits where
    a sidecar is to be written, the script stops with [IsADirectoryError];
    it completes exactly when there is no such directory. *)
Theorem update_md5_fails_on_directory (t : tree) :
  (no_dir_in_the_way t = false ->
     exists q, main_ t = Raise (IsADirectoryError q)) /\
  ((exists t', main_ t = Ok t') <-> no_dir_in_the_way t = true).
Proof.
  split; [apply main_raises|]. split.
  - intros [t' Hrun]. by apply (main_ok_clean t t').
  - intros Hclean. destruct (main_spec t Hclean) as (t' & Hrun & _). by exists t'.
Qed.

Lemma weights_are_files (t : tree) (p : string) :
  no_dir_in_the_way t = true -> is_weight t p ->
  exists b, t !! p = Some (File b).
Proof.
  intros Hclean Hp. unfold no_dir_in_the_way in Hclean.
  rewrite forallb_forall in Hclean.
  pose proof (Hclean p (proj1 (list_elem_of_In _ _) (proj2 (elem_of_glob t p) Hp)))
    as Hc.
  destruct Hp as [_ [n Hn]]. unfold is_dir in Hc. rewrite Hn in Hc.
  destruct n as [b|]; [by exists b|discriminate].
Qed.

(** A completed run changes nothing that matches the pattern. *)
Lemma main_keeps_weights (t t' : tree) (p : string) :
  main_ t = Ok t' -> glob_match p = true -> t' !! p = t !! p.
Proof.
  intros Hrun Hm.
  destruct (main_spec t (main_ok_clean t t' Hrun)) as (t1 & Hrun1 & _ & Hother).
  assert (t1 = t') as -> by congruence.
  apply Hother. intros q _ E. by apply (md5_path_of_not_weight q p).
Qed.

(** The script never touches its inputs and never removes anything: after a
    completed run every path that matches the pattern is as before, every
    path that existed still exists, and a path whose content differs is the
    sidecar of a weight file, holding that file's digest. *)
Theorem update_md5_only_adds_sidecars (t t' : tree) :
  main_ t = Ok t' ->
  (forall p, glob_match p = true -> t' !! p = t !! p) /\
  (forall q, is_Some (t !! q) -> is_Some (t' !! q)) /\
  (forall q, t' !! q <> t !! q ->
     exists p b, is_weight t p /\ t !! p = Some (File b) /\
                 q = md5_path_of p /\ t' !! q = Some (digest_file b)).
Proof.
  intros Hrun. pose proof (main_ok_clean t t' Hrun) as Hclean.
  destruct (main_spec t Hclean) as (t1 & Hrun1 & Hdig & Hother).
  assert (t1 = t') as -> by congruence.
  assert (Hcases : forall q,
    t' !! q = t !! q \/
    exists p b, is_weight t p /\ t !! p = Some (File b) /\
                q = md5_path_of p /\ t' !! q = Some (digest_file b)).
  { intros q.
    destruct (decide (q ∈ md5_path_of <$> glob t)) as [Hin|Hnot].
    - right. apply list_elem_of_fmap in Hin as (p & -> & Hp).
      apply elem_of_glob in Hp.
      destruct (weights_are_files t p Hclean Hp) as [b Hb].
      exists p, b. repeat split; try done; try apply Hp. by apply Hdig.
    - left. apply Hother. intros p Hp ->. apply Hnot.
      apply list_elem_of_fmap. exists p. split; [reflexivity|].
      by apply elem_of_glob. }
  split; [|split].
  - intros p Hm. by apply (main_keeps_weights t t').
  - intros q Hq. destruct (Hcases q) as [->|(p & b & _ & _ & _ & ->)]; [done|].
    by eexists.
  - intros q Hne. destruct (Hcases q) as [?|?]; [contradiction|done].
Qed.

(** Running the script again changes nothing: a second run on the result of
    a completed run completes with the same tree. *)
Theorem update_md5_idempotent (t t' : tree) :
  main_ t = Ok t' -> main_ t' = Ok t'.
Proof.
  intros Hrun. pose proof (main_ok_clean t t' Hrun) as Hclean.
  destruct (main_spec t Hclean) as (t1 & Hrun1 & Hdig & Hother).
  assert (t1 = t') as -> by congruence.
  assert (Hw : forall p, is_weight t' p -> is_weight t p).
  { intros p [Hm Hs]. split; [exact Hm|].
    by rewrite <- (main_keeps_weights t t' p Hrun Hm). }
  assert (Hclean' : no_dir_in_the_way t' = true).
  { unfold no_dir_in_the_way. apply forallb_forall. intros p Hp.
    apply list_elem_of_In, elem_of_glob in Hp. pose proof (Hw p Hp) as Hpt.
    destruct (weights_are_files t p Hclean Hpt) as [b Hb].
    unfold is_dir.
    rewrite (main_keeps_weights t t' p Hrun (proj1 Hp)), Hb.
    by rewrite (Hdig p b Hpt Hb). }
  destruct (main_spec t' Hclean') as (t2 & Hrun2 & Hdig2 & Hother2).
  rewrite Hrun2. f_equal. apply map_eq. intros q.
  destruct (decide (q ∈ md5_path_of <$> glob t')) as [Hin|Hnot].
  - apply list_elem_of_fmap in Hin as (p & -> & Hp).
    apply elem_of_glob in Hp. pose proof (Hw p Hp) as Hpt.
    destruct (weights_are_files t p Hclean Hpt) as [b Hb].
    rewrite (Hdig p b Hpt Hb). apply Hdig2; [exact Hp|].
    by rewrite (main_keeps_weights t t' p Hrun (proj1 Hp)).
  - apply Hother2. intros p Hp ->. apply Hnot.
    apply list_elem_of_fmap. exists p. split; [reflexivity|].
    by apply elem_of_glob.
Qed.

(** Only files exactly one directory down are hashed: a [.pdparams] path
    that does not match [*/*.pdparams], directly in the models directory or
    deeper, gets no sidecar. *)
Theorem update_md5_ignores_other_depths (t t' : tree) (p : string) :
  main_ t = Ok t' ->
  endswith p ext = true -> glob_match p = false ->
  t' !! md5_path_of p = t !! md5_path_of p.
Proof.
  intros Hrun He Hm.
  destruct (main_spec t (main_ok_clean t t' Hrun)) as (t1 & Hrun1 & _ & Hother).
  assert (t1 = t') as -> by congruence.
  apply Hother. intros q [Hq _] E.
  unfold md5_path_of in E. apply append_inv_tail in E.
  destruct (glob_match_stem q Hq) as [Eq _].
  assert (p = q).
  { rewrite (endswith_drop_end p ext He), Eq. by rewrite E. }
  subst q. congruence.
Qed.

End UpdateMd5More.

Lemma update_md5_fails_on_directory_witness :
  exists q,
    UpdateMd5.main UpdateMd5.demo_md5 UpdateMd5.demo_tree_dir
      = Raise (IsADirectoryError q).
Proof.
  destruct (update_md5_fails_on_directory UpdateMd5.demo_md5
              UpdateMd5.demo_tree_dir) as [H _].
  apply H. vm_compute. reflexivity.
Defined.

Lemma demo_tree_run :
  exists t', UpdateMd5.main UpdateMd5.demo_md5 UpdateMd5.demo_tree = Ok t'.
Proof. eexists. vm_compute. reflexivity. Defined.

Lemma update_md5_only_adds_sidecars_witness :
  exists t',
    UpdateMd5.main UpdateMd5.demo_md5 UpdateMd5.demo_tree = Ok t' /\
    t' !! "m/x.pdparams" = Some (UpdateMd5.File [Byte.x01; Byte.x02]).
Proof.
  destruct demo_tree_run as [t' Hrun]. exists t'. split; [exact Hrun|].
  destruct (update_md5_only_adds_sidecars UpdateMd5.demo_md5
              UpdateMd5.demo_tree t' Hrun) as (H & _ & _).
  rewrite (H "m/x.pdparams"); vm_compute; reflexivity.
Defined.

Lemma update_md5_idempotent_witness :
  exists t',
    UpdateMd5.main UpdateMd5.demo_md5 UpdateMd5.demo_tree = Ok t' /\
    UpdateMd5.main UpdateMd5.demo_md5 t' = Ok t'.
Proof.
  destruct demo_tree_run as [t' Hrun]. exists t'. split; [exact Hrun|].
  exact (update_md5_idempotent UpdateMd5.demo_md5 UpdateMd5.demo_tree t' Hrun).
Defined.

Lemma demo_tree_top_run :
  exists t', UpdateMd5.main UpdateMd5.demo_md5 UpdateMd5.demo_tree_top = Ok t'.
Proof. eexists. vm_compute. reflexivity. Defined.

Lemma update_md5_ignores_other_depths_witness :
  exists t',
    UpdateMd5.main UpdateMd5.demo_md5 UpdateMd5.demo_tree_top = Ok t' /\
    t' !! "top.md5" = None.
Proof.
  destruct demo_tree_top_run as [t' Hrun]. exists t'. split; [exact Hrun|].
  pose proof (update_md5_ignores_other_depths UpdateMd5.demo_md5
                UpdateMd5.demo_tree_top t' "top.pdparams" Hrun) as H.
  etransitivity; [apply H; vm_compute; reflexivity|].
  vm_compute. reflexivity.
Defined.

(** ** [Dataset.__init__]: what a constructed dataset holds, and the
    order of its checks *)

Section DatasetMore.

Import PyString Dataset.

Context {Transforms Composed : Type}.
Variable Compose : Transforms -> result (option Composed).
Variable path_exists : string -> bool.
Variable read_lines : string -> result (list string).

Local Abbreviation init_ := (init Compose path_exists read_lines).
Local Abbreviation reaches := (reaches_file_list Compose path_exists read_lines).

Ltac run_bind := cbn [mbind result_mbind result_bind].

Lemma required_path_ok (which : string) (path : option string) (p : string) :
  required_path path_exists which path = Ok p ->
  path = Some p /\ path_exists p = true.
Proof.
  unfold required_path. destruct path as [q|]; [|discriminate].
  destruct (path_exists q) eqn:E; simpl; [|discriminate].
  intros H. injection H as <-. auto.
Qed.

(** What a successful construction went through. *)
Lemma init_ok_inv tr root nc mode_ tp vp testp sep ii ed (ds : Dataset.t) :
  init_ tr root nc mode_ tp vp testp sep ii ed = Ok ds ->
  exists c lines,
    reaches tr root mode_ tp vp testp c lines /\
    lower mode_ ∈ ["train"; "val"; "test"] /\
    read_file_list root sep (lower mode_) lines [] = Ok (file_list ds) /\
    dataset_root ds = root /\ transforms ds = c /\ mode ds = lower mode_ /\
    num_classes ds = nc /\ ignore_index ds = ii /\ edge ds = ed.
Proof.
  unfold init.
  destruct (Compose tr) as [[c|]|e] eqn:HC; run_bind; rewrite ?lower_idem.
  - destruct (bool_decide (lower mode_ ∈ ["train"; "val"; "test"])) eqn:Hm;
      cbn [negb]; [|discriminate].
    apply bool_decide_eq_true in Hm.
    destruct (path_exists root) eqn:Hroot; cbn [negb]; [|discriminate].
    unfold mbind, result_mbind.
    match goal with
    | |- result_bind ?m _ = _ -> _ => destruct m as [p|e] eqn:Hp
    end; cbn [result_bind]; [|discriminate].
    destruct (read_lines p) as [lines|e] eqn:Hread; cbn [result_bind];
      [|discriminate].
    destruct (read_file_list root sep (lower mode_) lines []) as [entries|e]
      eqn:Hlist; cbn [result_bind]; [|discriminate].
    intros H. injection H as <-. exists c, lines. simpl.
    split; [|by repeat split].
    split; [exact HC|]. split; [exact Hroot|]. exists p.
    unfold selected_path.
    destruct (String.eqb (lower mode_) "train");
      [|destruct (String.eqb (lower mode_) "val")];
      apply required_path_ok in Hp as [-> Hex]; auto.
  - destruct (negb _); discriminate.
  - discriminate.
Qed.

Lemma read_file_list_ok_inv root sep mode_ lines acc out :
  read_file_list root sep mode_ lines acc = Ok out ->
  exists entries,
    out = acc ++ entries /\
    Forall2 (fun line e => parse_line root sep mode_ line = Ok e) lines entries.
Proof.
  revert acc. induction lines as [|line rest IH]; intros acc; simpl.
  - intros H. injection H as <-. exists []. by rewrite app_nil_r.
  - unfold mbind, result_mbind.
    destruct (parse_line root sep mode_ line) as [e|x] eqn:He;
      cbn [result_bind]; [|discriminate].
    intros H. destruct (IH _ H) as (entries & -> & Hall).
    exists (e :: entries). rewrite <- app_assoc. split; [reflexivity|].
    by constructor.
Qed.

(** An accepted line of a train or val list has exactly two fields, and
    its entry is the two joined to the root. *)
Lemma parse_line_train_val_ok root sep mode_ line e :
  mode_ ∈ ["train"; "val"] ->
  parse_line root sep mode_ line = Ok e ->
  exists a b, split (strip line) sep = Ok [a; b] /\
              e = (path_join root a, Some (path_join root b)).
Proof.
  intros Hmode. unfold parse_line.
  destruct (split (strip line) sep) as [items|x]; run_bind; [|discriminate].
  destruct (length items =? 2)%nat eqn:El; cbn [negb].
  - apply Nat.eqb_eq in El. destruct items as [|a [|b [|]]]; try discriminate.
    simpl. intros H. injection H as <-. by exists a, b.
  - by rewrite bool_decide_eq_true_2.
Qed.

(** The mode is case-insensitive: a mode and its lowercase form build the
    same dataset, or fail alike, and a constructed dataset stores the
    lowercase form, one of ['train'], ['val'], ['test']. *)
Theorem dataset_mode_case_insensitive tr root nc mode_ tp vp testp sep ii ed :
  init_ tr root nc mode_ tp vp testp sep ii ed
    = init_ tr root nc (lower mode_) tp vp testp sep ii ed /\
  (forall ds, init_ tr root nc mode_ tp vp testp sep ii ed = Ok ds ->
     mode ds = lower mode_ /\ mode ds ∈ ["train"; "val"; "test"]).
Proof.
  split.
  - unfold init. by rewrite !lower_idem.
  - intros ds Hds.
    destruct (init_ok_inv _ _ _ _ _ _ _ _ _ _ _ Hds)
      as (c & lines & _ & Hm & _ & _ & _ & -> & _). auto.
Qed.

(** A dataset constructed in train or val mode has one entry per line of
    its list, in the order of the file, and every entry carries a label
    path: each line had exactly two fields, and the entry is the pair of
    them joined to the dataset root.  The fields are those of the line
    stripped of its white space, NEL and no-break space included. *)
Theorem dataset_train_val_entries tr root nc mode_ tp vp testp sep ii ed ds :
  lower mode_ ∈ ["train"; "val"] ->
  init_ tr root nc mode_ tp vp testp sep ii ed = Ok ds ->
  exists c lines,
    reaches tr root mode_ tp vp testp c lines /\
    len ds = length lines /\
    Forall2
      (fun line e =>
         exists a b, split (strip line) sep = Ok [a; b] /\
                     e = (path_join root a, Some (path_join root b)))
      lines (file_list ds) /\
    (forall e, e ∈ file_list ds -> is_Some (snd e)).
Proof.
  intros Hmode Hds.
  destruct (init_ok_inv _ _ _ _ _ _ _ _ _ _ _ Hds)
    as (c & lines & Hreach & _ & Hlist & _).
  destruct (read_file_list_ok_inv _ _ _ _ _ _ Hlist) as (entries & He & Hall).
  simpl in He. exists c, lines. split; [exact Hreach|].
  assert (Hshape : Forall2
      (fun line e =>
         exists a b, split (strip line) sep = Ok [a; b] /\
                     e = (path_join root a, Some (path_join root b)))
      lines (file_list ds)).
  { rewrite He. eapply Forall2_impl; [exact Hall|].
    intros line e Hp. by apply (parse_line_train_val_ok root sep (lower mode_)). }
  split; [|split; [exact Hshape|]].
  - unfold len. symmetry. by eapply Forall2_length.
  - intros e Hin. apply list_elem_of_lookup in Hin as [i Hi].
    destruct (Forall2_lookup_r _ _ _ _ _ Hshape Hi)
      as (line & _ & a & b & _ & ->).
    by eexists.
Qed.

(** The checks on the inputs, in their order: with a valid mode and
    composed transforms, a missing [dataset_root] is a [FileNotFoundError]
    whatever the list paths are; with the root in place, the list path of
    the mode is required ([ValueError] when it is [None]) and must exist
    ([FileNotFoundError]); the list paths of the other modes are not looked
    at. *)
Theorem dataset_init_missing_inputs tr root nc mode_ tp vp testp sep ii ed c :
  Compose tr = Ok (Some c) ->
  lower mode_ ∈ ["train"; "val"; "test"] ->
  (path_exists root = false ->
     init_ tr root nc mode_ tp vp testp sep ii ed
       = Raise (FileNotFoundError ("there is not `dataset_root`: "
                                   +:+ root +:+ "."))) /\
  (path_exists root = true ->
   selected_path (lower mode_) tp vp testp = None ->
     exists msg,
       init_ tr root nc mode_ tp vp testp sep ii ed = Raise (ValueError msg)) /\
  (path_exists root = true ->
   forall p, selected_path (lower mode_) tp vp testp = Some p ->
     path_exists p = false ->
     exists msg,
       init_ tr root nc mode_ tp vp testp sep ii ed
         = Raise (FileNotFoundError msg)).
Proof.
  intros HC Hmode. unfold init. rewrite HC. run_bind.
  rewrite lower_idem, (bool_decide_eq_true_2 _ Hmode). cbn [negb].
  split; [|split].
  - intros ->. reflexivity.
  - intros -> Hsel. cbn [negb]. unfold selected_path in Hsel.
    destruct (String.eqb (lower mode_) "train");
      [|destruct (String.eqb (lower mode_) "val")];
      rewrite Hsel; unfold required_path; run_bind; eexists; reflexivity.
  - intros -> p Hsel Hp. cbn [negb]. unfold selected_path in Hsel.
    destruct (String.eqb (lower mode_) "train");
      [|destruct (String.eqb (lower mode_) "val")];
      rewrite Hsel; unfold required_path; rewrite Hp; run_bind;
      eexists; reflexivity.
Qed.

Lemma lstrip_blank (s : string) : is_blank s = true -> lstrip s = EmptyString.
Proof.
  unfold is_blank. induction s as [|c s IH]; simpl; [reflexivity|].
  intros H. apply andb_true_iff in H as [Hc Hs]. rewrite Hc. by apply IH.
Qed.

Lemma strip_blank (s : string) : is_blank s = true -> strip s = EmptyString.
Proof. intros H. unfold strip. by rewrite (lstrip_blank s H). Qed.

Lemma blank_line_malformed (sep line : string) :
  sep <> EmptyString -> is_blank line = true -> malformed sep line.
Proof.
  intros Hsep Hb. exists [EmptyString]. rewrite (strip_blank line Hb).
  rewrite (split_nonempty_sep _ _ Hsep). split; [reflexivity|discriminate].
Qed.

(** A blank line, empty or of whitespace only, is not tolerated in a train
    or val list: with any non-empty separator it has one field, and the
    constructor raises the format [ValueError]. *)
Theorem dataset_blank_line_rejected tr root nc mode_ tp vp testp sep ii ed
    c lines line :
  reaches tr root mode_ tp vp testp c lines ->
  lower mode_ ∈ ["train"; "val"] ->
  sep <> EmptyString ->
  line ∈ lines -> is_blank line = true ->
  init_ tr root nc mode_ tp vp testp sep ii ed = Raise (format_error sep).
Proof.
  intros Hreach Hmode Hsep Hin Hb.
  rewrite (init_reaches _ _ _ _ _ _ _ _ _ _ _ _ _ c lines Hreach).
  - rewrite (read_file_list_train_val root sep (lower mode_) lines Hmode);
      [reflexivity|].
    exists line. split; [exact Hin|]. by apply blank_line_malformed.
  - apply elem_of_cons in Hmode as [->|Hmode]; [apply list_elem_of_here|].
    apply list_elem_of_further.
    apply elem_of_cons in Hmode as [->|Hmode]; [apply list_elem_of_here|].
    inversion Hmode.
Qed.

(** With the empty string as separator no list with a line in it can be
    loaded, in any mode: [split] refuses the separator with a
    [ValueError]. *)
Theorem dataset_empty_separator_rejected tr root nc mode_ tp vp testp ii ed
    c line rest :
  reaches tr root mode_ tp vp testp c (line :: rest) ->
  lower mode_ ∈ ["train"; "val"; "test"] ->
  init_ tr root nc mode_ tp vp testp EmptyString ii ed
    = Raise (ValueError "empty separator").
Proof.
  intros Hreach Hmode.
  rewrite (init_reaches _ _ _ _ _ _ _ _ _ _ _ _ _ c (line :: rest) Hreach Hmode).
  reflexivity.
Qed.

Lemma string_app_nil_r (s : string) : s +:+ EmptyString = s.
Proof. apply chars_inj. rewrite chars_app. apply app_nil_r. Qed.

Lemma prefix_char (c x : ascii) (s : string) :
  String.prefix (char c) (String x s) = bool_decide (c = x).
Proof.
  unfold char. simpl. destruct (ascii_dec c x) as [->|Hne].
  - rewrite bool_decide_eq_true_2 by reflexivity. by destruct s.
  - by rewrite bool_decide_eq_false_2.
Qed.

(** A string without the separator character is one field. *)
Lemma split_scan_last (c : ascii) (b cur : string) :
  c ∉ chars b -> split_scan (char c) b 0 cur = [cur +:+ b].
Proof.
  revert cur. induction b as [|x b IH]; intros cur Hc; cbn [split_scan].
  - by rewrite string_app_nil_r.
  - simpl in Hc. apply not_elem_of_cons in Hc as [Hx Hb].
    rewrite prefix_char, bool_decide_eq_false_2 by exact Hx.
    rewrite (IH _ Hb), <- string_app_assoc. reflexivity.
Qed.

(** Up to the first separator character lies the first field. *)
Lemma split_scan_field (c : ascii) (a rest cur : string) :
  c ∉ chars a ->
  split_scan (char c) (a +:+ String c rest) 0 cur
    = (cur +:+ a) :: split_scan (char c) rest 0 EmptyString.
Proof.
  revert cur. induction a as [|x a IH]; intros cur Hc.
  - change (EmptyString +:+ String c rest) with (String c rest).
    cbn [split_scan]. rewrite prefix_char, bool_decide_eq_true_2 by reflexivity.
    rewrite string_app_nil_r. reflexivity.
  - simpl in Hc. apply not_elem_of_cons in Hc as [Hx Ha].
    change (String x a +:+ String c rest) with (String x (a +:+ String c rest)).
    cbn [split_scan]. rewrite prefix_char, bool_decide_eq_false_2 by exact Hx.
    rewrite (IH _ Ha), <- string_app_assoc. reflexivity.
Qed.

Lemma rstrip_blank (w : string) : is_blank w = true -> rstrip w = EmptyString.
Proof.
  unfold is_blank. induction w as [|x w IH]; simpl; [reflexivity|].
  intros H. apply andb_true_iff in H as [Hx Hw]. by rewrite (IH Hw), Hx.
Qed.

Lemma rstrip_app_blank (s w : string) :
  is_blank w = true -> rstrip (s +:+ w) = rstrip s.
Proof.
  intros Hw. induction s as [|x s IH]; simpl.
  - by apply rstrip_blank.
  - by rewrite IH.
Qed.

Lemma rstrip_no_space (b : string) : no_space b = true -> rstrip b = b.
Proof.
  unfold no_space. induction b as [|x b IH]; simpl; [reflexivity|].
  intros H. apply andb_true_iff in H as [Hx Hb]. rewrite (IH Hb).
  destruct b; [|reflexivity]. apply negb_true_iff in Hx. by rewrite Hx.
Qed.

Lemma rstrip_app_no_space (s b : string) :
  b <> EmptyString -> no_space b = true -> rstrip (s +:+ b) = s +:+ b.
Proof.
  intros Hne Hb. induction s as [|x s IH].
  - by apply rstrip_no_space.
  - change (rstrip (String x (s +:+ b)) = String x (s +:+ b)).
    cbn [rstrip]. rewrite IH. destruct (s +:+ b) eqn:E; [|reflexivity].
    destruct s; simpl in E; [contradiction|discriminate].
Qed.

Lemma lstrip_no_space (a rest : string) :
  a <> EmptyString -> no_space a = true -> lstrip (a +:+ rest) = a +:+ rest.
Proof.
  intros Hne Ha. destruct a as [|x a]; [contradiction|].
  unfold no_space in Ha. simpl in Ha. apply andb_true_iff in Ha as [Hx _].
  apply negb_true_iff in Hx. simpl. by rewrite Hx.
Qed.

(** Writing and reading a list line: two fields without whitespace and
    without the separator character, joined by the one-character separator
    and followed by a line end, are read back in every mode as the entry of
    the two fields joined to the dataset root.  White space is that of
    [str.isspace], NEL and no-break space included, in the fields as in the
    line end. *)
Theorem dataset_line_round_trip root (c : ascii) (a b w mode_ : string) :
  a <> EmptyString -> b <> EmptyString ->
  no_space a = true -> no_space b = true ->
  c ∉ chars a -> c ∉ chars b ->
  is_blank w = true ->
  parse_line root (char c) mode_ ((a +:+ char c +:+ b) +:+ w)
    = Ok (path_join root a, Some (path_join root b)).
Proof.
  intros Ha Hb Hsa Hsb Hca Hcb Hw.
  assert (Hstrip : strip ((a +:+ char c +:+ b) +:+ w) = a +:+ String c b).
  { unfold strip. rewrite <- string_app_assoc.
    rewrite (lstrip_no_space a _ Ha Hsa), string_app_assoc.
    rewrite (rstrip_app_blank _ w Hw), string_app_assoc.
    rewrite (rstrip_app_no_space _ b Hb Hsb), <- string_app_assoc.
    reflexivity. }
  unfold parse_line. rewrite Hstrip.
  unfold split. change (String.eqb (char c) EmptyString) with false.
  cbv iota. rewrite (split_scan_field c a b EmptyString Hca).
  rewrite (split_scan_last c b EmptyString Hcb). reflexivity.
Qed.

End DatasetMore.

Lemma dataset_mode_case_insensitive_witness :
  exists ds,
    Dataset.Demo.run 0%nat "data" 2%Z "TEST" None None (Some "data/test.txt")
      " " 255%Z false = Ok ds /\
    Dataset.mode ds = "test".
Proof.
  destruct (dataset_mode_case_insensitive Dataset.Demo.Compose
              Dataset.Demo.path_exists Dataset.Demo.read_lines
              0%nat "data" 2%Z "TEST" None None (Some "data/test.txt") " "
              255%Z false) as [_ H].
  eexists. split; [vm_compute; reflexivity|].
  eapply H. vm_compute. reflexivity.
Defined.

Lemma dataset_train_val_entries_witness :
  exists ds,
    Dataset.Demo2.run 0%nat "data" 2%Z "val" None (Some "data/val.txt") None
      " " 255%Z false = Ok ds /\
    Dataset.len ds = 2%nat /\
    Dataset.file_list ds
      = [("data/a.jpg", Some "data/a.png"); ("data/b.jpg", Some "data/b.png")].
Proof.
  eexists. split; [vm_compute; reflexivity|].
  match goal with
  | |- Dataset.len ?d = _ /\ _ =>
      destruct (dataset_train_val_entries Dataset.Demo2.Compose
                  Dataset.Demo2.path_exists Dataset.Demo2.read_lines
                  0%nat "data" 2%Z "val" None (Some "data/val.txt") None " "
                  255%Z false d) as (c & lines & _ & Hlen & _)
  end.
  - vm_compute. apply list_elem_of_further, list_elem_of_here.
  - vm_compute. reflexivity.
  - split; [|reflexivity]. vm_compute. reflexivity.
Defined.

Lemma dataset_init_missing_inputs_witness :
  Dataset.Demo2.run 0%nat "nowhere" 2%Z "val" None (Some "data/val.txt") None
    " " 255%Z false
  = Raise (FileNotFoundError "there is not `dataset_root`: nowhere.").
Proof.
  destruct (dataset_init_missing_inputs Dataset.Demo2.Compose
              Dataset.Demo2.path_exists Dataset.Demo2.read_lines
              0%nat "nowhere" 2%Z "val" None (Some "data/val.txt") None " "
              255%Z false 0%nat) as (H & _ & _).
  - reflexivity.
  - vm_compute. apply list_elem_of_further, list_elem_of_here.
  - apply H. vm_compute. reflexivity.
Defined.

Lemma dataset_blank_line_rejected_witness :
  exists msg,
    Dataset.Demo2.run 0%nat "data" 2%Z "train" (Some "data/blank.txt") None
      None " " 255%Z false = Raise (ValueError msg).
Proof.
  eexists.
  apply (dataset_blank_line_rejected Dataset.Demo2.Compose
           Dataset.Demo2.path_exists Dataset.Demo2.read_lines
           0%nat "data" 2%Z "train" (Some "data/blank.txt") None None " "
           255%Z false 0%nat
           ["a.jpg a.png" +:+ Dataset.Demo2.nl; Dataset.Demo2.nl]
           Dataset.Demo2.nl).
  - split; [reflexivity|]. split; [reflexivity|].
    exists "data/blank.txt". repeat split.
  - vm_compute. apply list_elem_of_here.
  - discriminate.
  - apply list_elem_of_further, list_elem_of_here.
  - reflexivity.
Defined.

Lemma dataset_empty_separator_rejected_witness :
  Dataset.Demo2.run 0%nat "data" 2%Z "test" None None (Some "data/val.txt")
    EmptyString 255%Z false
  = Raise (ValueError "empty separator").
Proof.
  apply (dataset_empty_separator_rejected Dataset.Demo2.Compose
           Dataset.Demo2.path_exists Dataset.Demo2.read_lines
           0%nat "data" 2%Z "test" None None (Some "data/val.txt")
           255%Z false 0%nat ("a.jpg a.png" +:+ Dataset.Demo2.nl)
           ["b.jpg b.png" +:+ Dataset.Demo2.nl]).
  - split; [reflexivity|]. split; [reflexivity|].
    exists "data/val.txt". repeat split.
  - vm_compute. do 2 apply list_elem_of_further. apply list_elem_of_here.
Defined.

Lemma dataset_line_round_trip_witness :
  Dataset.parse_line "data" " " "train"
    (("img/a.jpg" +:+ " " +:+ "lab/a.png") +:+ Dataset.Demo2.nl)
  = Ok ("data/img/a.jpg", Some "data/lab/a.png").
Proof.
  apply (dataset_line_round_trip "data" " "%char "img/a.jpg" "lab/a.png"
           Dataset.Demo2.nl "train").
  - discriminate.
  - discriminate.
  - reflexivity.
  - reflexivity.
  - vm_compute. intros H. repeat (inversion H as [|? ? ? H']; subst; clear H; rename H' into H). 
  - vm_compute. intros H. repeat (inversion H as [|? ? ? H']; subst; clear H; rename H' into H).
  - reflexivity.
Defined.

(** ** [train]: when the loop ends, who saves, what is pruned *)

Section TrainMore.

Import PyString Train.

Variable improves : Z -> bool.
Variable cfg : config.

Local Abbreviation k := (keep_checkpoint_max cfg).
Local Abbreviation csd := (current_save_dir cfg).
Local Abbreviation save := (save_checkpoint cfg).
Local Abbreviation pass := (iteration improves cfg).
Local Abbreviation train_ := (train improves cfg).
Local Abbreviation reach := (reachable improves cfg).

(** With a loader that yields no batch, [iter] never moves: while
    [start_iter < iters] the loop does not end, whatever the fuel. *)
Theorem train_empty_loader_never_ends start disk eb :
  batches cfg = 0%nat -> (start < iters cfg)%Z ->
  forall fuel, train improves cfg start disk eb fuel = None.
Proof.
  intros Hb Hlt fuel. unfold train.
  assert (H : forall st, (iter st < iters cfg)%Z ->
                         while_loop improves cfg fuel st = None).
  { induction fuel as [|fuel IH]; intros st Hst; simpl;
      rewrite (proj2 (Z.ltb_lt _ _) Hst); [reflexivity|].
    rewrite Hb. simpl. by apply IH. }
  by apply H.
Qed.

(** A zero [save_interval] or [log_iters] makes the first pass of the body
    raise [ZeroDivisionError], on every rank. *)
Theorem train_zero_interval_raises start disk eb fuel n :
  save_interval cfg = 0%Z \/ log_iters cfg = 0%Z ->
  batches cfg = S n -> (start < iters cfg)%Z ->
  train improves cfg start disk eb (S fuel) = Some (Raise ZeroDivisionError).
Proof.
  intros Hz Hb Hlt. unfold train. simpl.
  rewrite (proj2 (Z.ltb_lt _ _) Hlt), Hb. simpl.
  destruct (iters cfg <? start + 1)%Z eqn:E; [apply Z.ltb_lt in E; lia|].
  unfold iteration, py_mod. simpl.
  destruct (Z.eqb (log_iters cfg) 0) eqn:El; [reflexivity|].
  destruct Hz as [Hs|Hl].
  - rewrite Hs. reflexivity.
  - rewrite Hl in El. discriminate.
Qed.

(** On a rank other than 0 a pass changes neither deque nor disk. *)
Lemma iteration_other_rank (st st' : state) :
  local_rank cfg <> 0%Z -> pass st = Ok st' ->
  save_models st' = save_models st /\ dirs st' = dirs st.
Proof.
  intros Hr. apply Z.eqb_neq in Hr. unfold iteration, py_mod.
  destruct (Z.eqb (log_iters cfg) 0); [discriminate|].
  destruct (Z.eqb (save_interval cfg) 0); [discriminate|].
  cbn [mbind result_mbind result_bind]. rewrite Hr.
  rewrite !andb_false_r. cbn [result_bind]. simpl.
  intros H. injection H as <-. simpl. auto.
Qed.

(** Only rank 0 writes: on any other rank the loop never saves a
    checkpoint, never removes one and never creates [best_model]; deque and
    disk stay as they were at loop entry. *)
Theorem train_other_ranks_write_nothing start disk eb st :
  local_rank cfg <> 0%Z ->
  reach (entry cfg start disk eb) st ->
  save_models st = [] /\ dirs st = dirs (entry cfg start disk eb).
Proof.
  intros Hr Hreach. induction Hreach as [|st st' _ IH _ Hp]; [auto|].
  destruct (iteration_other_rank _ _ Hr Hp) as [-> ->]. exact IH.
Qed.

(** With [keep_checkpoint_max <= 0] nothing is pruned: each pass keeps the
    deque as a prefix of the new one and removes no directory. *)
Lemma pass_without_limit (st st' : state) :
  (k <= 0)%Z -> pass (tick st) = Ok st' ->
  save_models st `prefix_of` save_models st' /\ dirs st ⊆ dirs st'.
Proof.
  intros Hk Hp.
  destruct (iteration_cases improves cfg _ _ Hp)
    as (st1 & Hst1 & _ & -> & Hds).
  assert (H1 : save_models st `prefix_of` save_models st1 /\ dirs st ⊆ dirs st1).
  { destruct Hst1 as [->|Hs]; [done|].
    destruct (save_checkpoint_cases cfg _ _ Hs)
      as (_ & _ & [(_ & Hpos & _)|(_ & -> & ->)]); [lia|].
    simpl. split; [by apply prefix_app_r|].
    intros d Hd. apply elem_of_ensure_dir. by right. }
  destruct H1 as [Hpre Hsub]. split; [exact Hpre|].
  destruct Hds as [->| ->]; [exact Hsub|].
  intros d Hd. apply elem_of_union. left. by apply Hsub.
Qed.

(** [keep_checkpoint_max <= 0] switches pruning off: every checkpoint ever
    saved stays in the deque, in order, and no directory is ever
    removed. *)
Theorem train_no_limit_keeps_everything (s0 st : state) :
  (k <= 0)%Z -> reach s0 st ->
  save_models s0 `prefix_of` save_models st /\ dirs s0 ⊆ dirs st.
Proof.
  intros Hk Hreach. induction Hreach as [|st st' _ IH _ Hp]; [done|].
  destruct IH as [Hpre Hsub].
  destruct (pass_without_limit st st' Hk Hp) as [Hpre' Hsub'].
  split; [by transitivity (save_models st)|by transitivity (dirs st)].
Qed.

Lemma iteration_iter (st st' : state) : pass st = Ok st' -> iter st' = iter st.
Proof.
  intros Hp.
  destruct (iteration_cases improves cfg _ _ Hp) as (st1 & Hst1 & -> & _).
  destruct Hst1 as [->|Hs]; [reflexivity|].
  by destruct (save_checkpoint_cases cfg _ _ Hs) as (-> & _).
Qed.

Lemma retained_tick (start : Z) (st : state) :
  retained cfg start st -> retained cfg start (tick st).
Proof.
  intros [Hs Hd He Hn Hi]. constructor; simpl; try done; [lia|].
  intros d Hin. destruct (Hi d Hin) as (i & ? & ?). exists i. split; [lia|done].
Qed.

(** From a retained state, with non-zero intervals, a pass goes through. *)
Lemma pass_succeeds (start : Z) (st : state) :
  log_iters cfg <> 0%Z -> save_interval cfg <> 0%Z ->
  retained cfg start st -> exists st', pass (tick st) = Ok st'.
Proof.
  intros Hl Hs Hr. apply Z.eqb_neq in Hl, Hs.
  unfold iteration, py_mod. rewrite Hl, Hs.
  cbn [mbind result_mbind result_bind]. unfold mbind, result_mbind.
  destruct (save_checkpoint_succeeds cfg start st Hr) as [st1 Hst1].
  match goal with
  | |- context [result_bind (if ?b then _ else _) _] => destruct b
  end.
  - rewrite Hst1. cbn [result_bind]. by eexists.
  - cbn [result_bind]. by eexists.
Qed.

(** The [for] loop over the batches, from a retained state: it completes in
    a retained state, and with a batch to read it moves [iter] forward. *)
Lemma for_loader_total (start : Z) (n : nat) (st : state) :
  log_iters cfg <> 0%Z -> save_interval cfg <> 0%Z ->
  retained cfg start st ->
  exists st',
    for_loader improves cfg n st = Ok st' /\ retained cfg start st' /\
    (iter st <= iter st')%Z /\
    (n <> 0%nat -> (iter st < iter st')%Z) /\
    ((iter st <= iters cfg)%Z -> (iter st' <= iters cfg + 1)%Z).
Proof.
  intros Hl Hs. revert st. induction n as [|n IH]; intros st Hr.
  - exists st. split; [reflexivity|]. split; [exact Hr|].
    split; [lia|]. split; [done|lia].
  - cbn [for_loader]. destruct (iters cfg <? iter (tick st))%Z eqn:E.
    + exists (tick st). split; [reflexivity|].
      split; [by apply retained_tick|]. simpl.
      split; [lia|]. split; lia.
    + apply Z.ltb_ge in E. destruct (pass_succeeds start st Hl Hs Hr) as [st1 Hp].
      rewrite Hp. cbn [mbind result_mbind result_bind].
      pose proof (iteration_iter _ _ Hp) as Hit. simpl in Hit, E.
      destruct (IH st1 (retained_pass improves cfg start st st1 Hr Hp))
        as (st' & Hrun & Hr' & Hle & _ & Hup).
      exists st'. split; [exact Hrun|]. split; [exact Hr'|].
      split; [lia|]. split; [lia|]. intros _. apply Hup. lia.
Qed.

Lemma while_loop_total (start : Z) (fuel : nat) (st : state) :
  log_iters cfg <> 0%Z -> save_interval cfg <> 0%Z -> batches cfg <> 0%nat ->
  retained cfg start st ->
  (iters cfg - iter st <= Z.of_nat fuel)%Z ->
  exists st',
    while_loop improves cfg fuel st = Some (Ok st') /\
    retained cfg start st' /\ (iters cfg <= iter st')%Z /\
    ((iter st <= iters cfg)%Z -> (iter st' <= iters cfg + 1)%Z).
Proof.
  intros Hl Hs Hb. revert st.
  induction fuel as [|fuel IH]; intros st Hr Hfuel; cbn [while_loop].
  - destruct (iter st <? iters cfg)%Z eqn:E; [apply Z.ltb_lt in E; lia|].
    apply Z.ltb_ge in E. exists st. split; [reflexivity|].
    split; [exact Hr|]. split; lia.
  - destruct (iter st <? iters cfg)%Z eqn:E.
    + apply Z.ltb_lt in E.
      destruct (for_loader_total start (batches cfg) st Hl Hs Hr)
        as (st1 & -> & Hr1 & _ & Hlt & Hup).
      specialize (Hlt Hb).
      destruct (IH st1 Hr1) as (st' & Hrun & Hr' & Hge & Hup'); [lia|].
      exists st'. split; [exact Hrun|]. split; [exact Hr'|].
      split; [exact Hge|]. intros Hle.
      destruct (Z_le_gt_dec (iter st1) (iters cfg)) as [H1|H1]; [by apply Hup'|].
      destruct fuel; cbn [while_loop] in Hrun;
        rewrite (proj2 (Z.ltb_ge _ _)) in Hrun by lia;
        injection Hrun as <-; apply Hup; lia.
    + apply Z.ltb_ge in E. exists st. split; [reflexivity|].
      split; [exact Hr|]. split; lia.
Qed.

(** The loop ends: with batches to read, non-zero [save_interval] and
    [log_iters], and no old checkpoint directory under [save_dir], [train]
    returns after at most [iters - start_iter] rounds of the outer loop,
    without an exception, with [iter] at [iters] or one past it and the
    deque within the limit. *)
Theorem train_terminates start disk eb :
  log_iters cfg <> 0%Z -> save_interval cfg <> 0%Z -> batches cfg <> 0%nat ->
  fresh cfg disk ->
  exists st,
    train improves cfg start disk eb (Z.to_nat (iters cfg - start))
      = Some (Ok st) /\
    (iters cfg <= iter st)%Z /\
    ((start <= iters cfg)%Z -> (iter st <= iters cfg + 1)%Z).
Proof.
  intros Hl Hs Hb Hfresh. unfold train.
  destruct (while_loop_total start (Z.to_nat (iters cfg - start))
              (entry cfg start disk eb) Hl Hs Hb
              (retained_entry cfg start disk eb Hfresh))
    as (st & Hrun & _ & Hge & Hup).
  - simpl. lia.
  - exists st. auto.
Qed.

(** After a save the new directory is the last entry of the deque. *)
Lemma save_checkpoint_last (st st' : state) :
  save st = Ok st' -> last (save_models st') = Some (csd (iter st)).
Proof.
  intros Hs.
  destruct (save_checkpoint_cases cfg _ _ Hs)
    as (_ & _ & [(Hfull & Hpos & oldest & rest & Hm & -> & _)|(_ & -> & _)]).
  - assert (Hlast : last (oldest :: rest) = Some (csd (iter st))).
    { rewrite <- Hm. apply last_snoc. }
    destruct rest as [|r rest]; [|exact Hlast].
    apply (f_equal length) in Hm. rewrite length_app in Hm. simpl in Hm. lia.
  - apply last_snoc.
Qed.

(** The pass of the last iteration saves, on rank 0. *)
Lemma iteration_last_saves (st st' : state) :
  iter st = iters cfg -> local_rank cfg = 0%Z -> pass st = Ok st' ->
  last (save_models st') = Some (csd (iters cfg)).
Proof.
  intros Hit Hr. unfold iteration, py_mod.
  destruct (Z.eqb (log_iters cfg) 0); [discriminate|].
  destruct (Z.eqb (save_interval cfg) 0); [discriminate|].
  cbn [mbind result_mbind result_bind]. unfold mbind, result_mbind.
  rewrite Hr, Hit, Z.eqb_refl, orb_true_r. cbn [andb Z.eqb].
  destruct (save st) as [st1|e] eqn:Hs; cbn [result_bind]; [|discriminate].
  intros H. injection H as <-. simpl.
  rewrite (save_checkpoint_last _ _ Hs). by rewrite Hit.
Qed.

(** Where the passes of a run stand: at loop entry, or past [start_iter]
    and not past [iters], with the checkpoint of [iters] last in the deque
    once [iters] is reached on rank 0. *)
Lemma reachable_progress start disk eb st :
  local_rank cfg = 0%Z ->
  reach (entry cfg start disk eb) st ->
  st = entry cfg start disk eb \/
  ((start < iter st <= iters cfg)%Z /\
   (iter st = iters cfg -> last (save_models st) = Some (csd (iters cfg)))).
Proof.
  intros Hr Hreach. induction Hreach as [|st st' Hprev IH Hle Hp]; [by left|].
  right. pose proof (iteration_iter _ _ Hp) as Hit. simpl in Hit, Hle.
  assert (start <= iter st)%Z.
  { destruct IH as [->|[? _]]; simpl; lia. }
  split; [lia|]. intros Hlast.
  apply (iteration_last_saves (tick st) st'); [simpl; lia|exact Hr|exact Hp].
Qed.

Lemma while_loop_exit (fuel : nat) (st st' : state) :
  while_loop improves cfg fuel st = Some (Ok st') -> (iters cfg <= iter st')%Z.
Proof.
  revert st. induction fuel as [|fuel IH]; intros st; cbn [while_loop];
    destruct (iter st <? iters cfg)%Z eqn:E.
  - discriminate.
  - apply Z.ltb_ge in E. intros H. by injection H as <-.
  - destruct (for_loader improves cfg (batches cfg) st); [apply IH|discriminate].
  - apply Z.ltb_ge in E. intros H. by injection H as <-.
Qed.

(** The last iteration is always checkpointed: when a run that had passes
    to make ([start_iter < iters]) ends on rank 0, the newest entry of the
    deque is the directory of iteration [iters], whether or not [iters] is
    a multiple of [save_interval]. *)
Theorem train_saves_final_checkpoint start disk eb fuel st :
  local_rank cfg = 0%Z -> (start < iters cfg)%Z ->
  train improves cfg start disk eb fuel = Some (Ok st) ->
  last (save_models st) = Some (current_save_dir cfg (iters cfg)).
Proof.
  intros Hr Hlt Hrun. pose proof (while_loop_exit _ _ _ Hrun) as Hexit.
  apply (while_loop_settled improves cfg (entry cfg start disk eb)) in Hrun;
    [|exists (entry cfg start disk eb); split; [constructor|by left]].
  destruct Hrun as (st0 & Hreach & Hst).
  assert (Hsame : save_models st = save_models st0 /\ (iters cfg <= iter st0)%Z).
  { destruct Hst as [->|[-> Hbreak]]; [done|]. simpl in *. split; [done|lia]. }
  destruct Hsame as [-> Hge].
  destruct (reachable_progress start disk eb st0 Hr Hreach) as [->|[Hrange Hlast]].
  - simpl in Hge. lia.
  - apply Hlast. lia.
Qed.

(** Pruning removes checkpoint directories only: in a run that started
    without checkpoint directories under [save_dir], a directory that a
    pass removes is the oldest entry of the deque, so [save_dir],
    [best_model] and every other directory survive each pass. *)
Theorem train_prunes_only_checkpoints start disk eb st st' :
  fresh cfg disk ->
  reach (entry cfg start disk eb) st ->
  pass (tick st) = Ok st' ->
  (forall d, d ∈ dirs st -> d ∉ dirs st' ->
     head (save_models st) = Some d /\ is_checkpoint_dir cfg d) /\
  (forall d, d ∈ dirs st -> ~ is_checkpoint_dir cfg d -> d ∈ dirs st').
Proof.
  intros Hfresh Hreach Hp.
  pose proof (retained_reachable improves cfg start _ _
                (retained_entry cfg start disk eb Hfresh) Hreach) as Hret.
  assert (Hgone : forall d, d ∈ dirs st -> d ∉ dirs st' ->
            head (save_models st) = Some d /\ is_checkpoint_dir cfg d).
  { intros d Hin Hout.
    destruct (iteration_cases improves cfg _ _ Hp) as (st1 & Hst1 & _ & _ & Hds).
    assert (Hout1 : d ∉ dirs st1).
    { intros Hd. apply Hout. destruct Hds as [->| ->]; [done|].
      apply elem_of_union. by left. }
    destruct Hst1 as [->|Hs]; [contradiction|].
    destruct (save_checkpoint_cases cfg _ _ Hs)
      as (_ & _ & [(_ & _ & oldest & rest & Hm & _ & _ & Hd1)|(_ & _ & Hd1)]);
      cbn [tick iter save_models dirs] in *.
    - rewrite Hd1 in Hout1.
      assert (d = oldest).
      { destruct (decide (d = oldest)) as [|Hne]; [done|]. exfalso.
        apply Hout1. apply elem_of_difference. split.
        - apply elem_of_ensure_dir. by right.
        - by intros ?%elem_of_singleton. }
      subst d. destruct (save_models st) as [|o r] eqn:Esm.
      + simpl in Hm. injection Hm as <- <-.
        exfalso. apply (ret_disk _ _ _ Hret) in Hin; [|by eexists].
        rewrite Esm in Hin. inversion Hin.
      + simpl in Hm. injection Hm as <- <-. split; [reflexivity|].
        destruct (ret_iters _ _ _ Hret o) as (i & _ & ->); [|by eexists].
        rewrite Esm. apply list_elem_of_here.
    - exfalso. apply Hout1. rewrite Hd1. apply elem_of_ensure_dir. by right. }
  split; [exact Hgone|].
  intros d Hin Hnc. destruct (decide (d ∈ dirs st')) as [|Hout]; [done|].
  destruct (Hgone d Hin Hout) as [_ Hc]. contradiction.
Qed.

(** A pass saves only when a save is due, and on rank 0. *)
Lemma iteration_cases_due (st st' : state) :
  pass st = Ok st' ->
  exists st1,
    (st1 = st \/ (save st = Ok st1 /\ save_due cfg (iter st))) /\
    save_models st' = save_models st1.
Proof.
  unfold iteration, py_mod.
  destruct (Z.eqb (log_iters cfg) 0); [discriminate|].
  destruct (Z.eqb (save_interval cfg) 0); [discriminate|].
  cbn [mbind result_mbind result_bind]. unfold mbind, result_mbind.
  destruct ((iter st `mod` save_interval cfg =? 0)%Z
            || (iter st =? iters cfg)%Z) eqn:Edue; cbn [andb].
  - destruct (local_rank cfg =? 0)%Z.
    + destruct (save st) as [st1|e] eqn:Hs; cbn [result_bind]; [|discriminate].
      intros H. injection H as <-. exists st1. split; [|reflexivity].
      right. split; [reflexivity|]. unfold save_due.
      apply orb_true_iff in Edue as [E|E]; [left|right]; by apply Z.eqb_eq.
    + cbn [result_bind]. intros H. injection H as <-. exists st. auto.
  - cbn [result_bind]. intros H. injection H as <-. exists st. auto.
Qed.

(** The deque is in order of age: the retained checkpoints are those of
    strictly increasing iterations, oldest first, each an iteration of
    this run at which a save was due (a multiple of [save_interval], or
    [iters]); so the entry that pruning removes is the one of the smallest
    iteration. *)
Theorem train_deque_oldest_first start disk eb st :
  reach (entry cfg start disk eb) st ->
  (start <= iter st)%Z /\ oldest_first cfg start st.
Proof.
  intros Hreach. induction Hreach as [|st st' _ [Hstart IH] _ Hp].
  - split; [simpl; lia|]. exists []. repeat split; constructor.
  - pose proof (iteration_iter _ _ Hp) as Hit. simpl in Hit.
    split; [lia|]. destruct IH as (idx & Hsm & Hsort & Hall).
    assert (Hall' : Forall (fun i => (start < i <= iter st')%Z /\ save_due cfg i) idx).
    { eapply Forall_impl; [exact Hall|]. intros i [? ?]. split; [lia|done]. }
    destruct (iteration_cases_due _ _ Hp) as (st1 & [->|[Hs Hdue]] & Hsm').
    + exists idx. rewrite Hsm'. simpl. auto.
    + simpl in Hdue.
      assert (Hsort1 : StronglySorted Z.lt (idx ++ [iter st + 1])%Z).
      { apply StronglySorted_app_2; [|exact Hsort|repeat constructor].
        intros x1 x2 H1 H2. apply list_elem_of_singleton in H2 as ->.
        rewrite Forall_forall in Hall. destruct (Hall x1 H1). lia. }
      assert (Hall1 : Forall (fun i => (start < i <= iter st')%Z /\ save_due cfg i)
                             (idx ++ [iter st + 1])%Z).
      { apply Forall_app. split; [exact Hall'|]. constructor; [|constructor].
        split; [lia|exact Hdue]. }
      assert (Hm1 : save_models (tick st) ++ [csd (iter (tick st))]
                    = csd <$> (idx ++ [iter st + 1])%Z).
      { simpl. by rewrite fmap_app, Hsm. }
      destruct (save_checkpoint_cases cfg _ _ Hs)
        as (_ & _ & [(_ & _ & oldest & rest & Hm & Hrest & _)|(_ & Hkeep & _)]).
      * rewrite Hm1 in Hm.
        destruct (idx ++ [iter st + 1])%Z as [|i0 idx'] eqn:Eidx;
          [discriminate|].
        simpl in Hm. injection Hm as _ Hm. exists idx'.
        rewrite Hsm', Hrest, <- Hm.
        apply StronglySorted_cons in Hsort1 as [_ Hsort1].
        apply Forall_cons in Hall1 as [_ Hall1]. auto.
      * exists (idx ++ [iter st + 1])%Z. rewrite Hsm', Hkeep, Hm1. auto.
Qed.

End TrainMore.

Lemma train_empty_loader_never_ends_witness :
  Train.train Train.demo_improves Train.demo_cfg_empty 0 ∅ None 25 = None.
Proof.
  apply (train_empty_loader_never_ends Train.demo_improves
           Train.demo_cfg_empty 0 ∅ None); reflexivity.
Defined.

Lemma train_zero_interval_raises_witness :
  Train.train Train.demo_improves Train.demo_cfg_zero 0 ∅ None 1
    = Some (Raise ZeroDivisionError).
Proof.
  apply (train_zero_interval_raises Train.demo_improves Train.demo_cfg_zero
           0 ∅ None 0%nat 2%nat).
  - left. reflexivity.
  - reflexivity.
  - reflexivity.
Defined.

Lemma demo_state_rank1_reachable :
  Train.reachable Train.demo_improves Train.demo_cfg_rank1
    (Train.entry Train.demo_cfg_rank1 0 ∅ None) Train.demo_state_rank1.
Proof.
  eapply Train.reach_pass;
    [eapply Train.reach_pass; [apply Train.reach_entry|..]|..].
  - vm_compute. discriminate.
  - reflexivity.
  - vm_compute. discriminate.
  - vm_compute. reflexivity.
Defined.

Lemma train_other_ranks_write_nothing_witness :
  Train.save_models Train.demo_state_rank1 = [] /\
  Train.dirs Train.demo_state_rank1
    = Train.dirs (Train.entry Train.demo_cfg_rank1 0 ∅ None).
Proof.
  apply (train_other_ranks_write_nothing Train.demo_improves
           Train.demo_cfg_rank1 0 ∅ None).
  - discriminate.
  - exact demo_state_rank1_reachable.
Defined.

Lemma demo_state_nolimit_reachable :
  Train.reachable Train.demo_improves Train.demo_cfg_nolimit
    Train.demo_state Train.demo_state_nolimit.
Proof.
  eapply Train.reach_pass;
    [eapply Train.reach_pass; [apply Train.reach_entry|..]|..].
  - vm_compute. discriminate.
  - reflexivity.
  - vm_compute. discriminate.
  - vm_compute. reflexivity.
Defined.

Lemma train_no_limit_keeps_everything_witness :
  ["output/iter_2"; "output/iter_4"]
    `prefix_of` Train.save_models Train.demo_state_nolimit /\
  Train.dirs Train.demo_state ⊆ Train.dirs Train.demo_state_nolimit.
Proof.
  apply (train_no_limit_keeps_everything Train.demo_improves
           Train.demo_cfg_nolimit Train.demo_state Train.demo_state_nolimit).
  - vm_compute. discriminate.
  - exact demo_state_nolimit_reachable.
Defined.

Lemma train_terminates_witness :
  exists st,
    Train.train Train.demo_improves Train.demo_cfg 0 ∅ None 7 = Some (Ok st).
Proof.
  destruct (train_terminates Train.demo_improves Train.demo_cfg 0 ∅ None)
    as (st & Hrun & _).
  - discriminate.
  - discriminate.
  - discriminate.
  - intros d Hd. inversion Hd.
  - exists st. exact Hrun.
Defined.

Lemma train_saves_final_checkpoint_witness :
  exists st,
    Train.train Train.demo_improves Train.demo_cfg 0 ∅ None 10 = Some (Ok st) /\
    last (Train.save_models st) = Some "output/iter_7".
Proof.
  destruct train_demo_run as (st & Hrun & _). exists st.
  split; [exact Hrun|].
  etransitivity;
    [apply (train_saves_final_checkpoint Train.demo_improves Train.demo_cfg
              0 ∅ None 10 st); [reflexivity|reflexivity|exact Hrun]|].
  vm_compute. reflexivity.
Defined.

Lemma demo_state5_reachable :
  Train.reachable Train.demo_improves Train.demo_cfg
    (Train.entry Train.demo_cfg 0 ∅ None) Train.demo_state5.
Proof.
  eapply Train.reach_pass; [exact demo_state_reachable|..].
  - vm_compute. discriminate.
  - vm_compute. reflexivity.
Defined.

(** The pass for iteration 6 from [demo_state5]: the third checkpoint. *)
Lemma demo_state5_next_pass :
  Train.iteration Train.demo_improves Train.demo_cfg
    (Train.tick Train.demo_state5) = Ok Train.demo_state6.
Proof. vm_compute. reflexivity. Defined.

Lemma train_prunes_only_checkpoints_witness :
  Train.iteration Train.demo_improves Train.demo_cfg
    (Train.tick Train.demo_state5) = Ok Train.demo_state6 /\
  ("output/iter_2" ∈ Train.dirs Train.demo_state5) /\
  ("output/iter_2" ∉ Train.dirs Train.demo_state6) /\
  head (Train.save_models Train.demo_state5) = Some "output/iter_2" /\
  Train.is_checkpoint_dir Train.demo_cfg "output/iter_2" /\
  ("output/best_model" ∈ Train.dirs Train.demo_state6).
Proof.
  assert (Hin : "output/iter_2" ∈ Train.dirs Train.demo_state5).
  { refine (bool_decide_unpack _ _). vm_compute. exact I. }
  assert (Hout : "output/iter_2" ∉ Train.dirs Train.demo_state6).
  { refine (bool_decide_unpack _ _). vm_compute. exact I. }
  destruct (train_prunes_only_checkpoints Train.demo_improves Train.demo_cfg
              0 ∅ None Train.demo_state5 Train.demo_state6) as [Hgone Hkept].
  - intros d Hd. inversion Hd.
  - exact demo_state5_reachable.
  - exact demo_state5_next_pass.
  - destruct (Hgone "output/iter_2" Hin Hout) as [Hhead Hck].
    split; [exact demo_state5_next_pass|].
    split; [exact Hin|]. split; [exact Hout|].
    split; [exact Hhead|]. split; [exact Hck|].
    apply Hkept.
    + refine (bool_decide_unpack _ _). vm_compute. exact I.
    + exact (best_model_not_checkpoint Train.demo_cfg).
Defined.

Lemma train_deque_oldest_first_witness :
  Train.oldest_first Train.demo_cfg 0 Train.demo_state.
Proof.
  exact (proj2 (train_deque_oldest_first Train.demo_improves Train.demo_cfg
                  0 ∅ None Train.demo_state demo_state_reachable)).
Defined.

(** ** [Dataset.__getitem__] on a constructed dataset *)

Section DatasetItems.

Import PyString Dataset.

Context {Transforms Composed Im Lbl Edge : Type}.
Variable Compose : Transforms -> result (option Composed).
Variable path_exists : string -> bool.
Variable read_lines : string -> result (list string).
Variable call_transforms :
  Composed -> string -> option string -> result (Im * option Lbl).
Variable im_newaxis : Im -> Im.
Variable open_label : option string -> result Lbl.
Variable lbl_newaxis : Lbl -> Lbl.
Variable mask_to_binary_edge : option Lbl -> Z -> Z -> result Edge.

Local Abbreviation init_ := (init Compose path_exists read_lines).
Local Abbreviation reaches := (reaches_file_list Compose path_exists read_lines).
Local Abbreviation getitem_ :=
  (getitem call_transforms im_newaxis open_label lbl_newaxis
           mask_to_binary_edge).

Lemma py_index_nat {A} (l : list A) (i : nat) (x : A) :
  l !! i = Some x -> py_index l (Z.of_nat i) = Ok x.
Proof.
  intros Hi. pose proof (lookup_lt_Some _ _ _ Hi) as Hlt.
  unfold py_index.
  destruct (Z.of_nat i <? 0)%Z eqn:E0; [apply Z.ltb_lt in E0; lia|].
  rewrite (proj2 (Z.leb_le _ _)) by lia.
  rewrite (proj2 (Z.ltb_lt _ _)) by lia.
  simpl. by rewrite Nat2Z.id, Hi.
Qed.

(** The image path of an accepted line is its first field joined to the
    root. *)
Lemma parse_line_image root sep mode_ line e :
  parse_line root sep mode_ line = Ok e ->
  exists items first,
    split (strip line) sep = Ok items /\ items !! 0%nat = Some first /\
    fst e = path_join root first.
Proof.
  unfold parse_line.
  destruct (split (strip line) sep) as [items|x];
    cbn [mbind result_mbind result_bind]; [|discriminate].
  destruct (negb (length items =? 2)%nat).
  - destruct (bool_decide _); [discriminate|].
    unfold item. destruct (items !! 0%nat) as [first|] eqn:E0;
      cbn [mbind result_mbind result_bind]; [|discriminate].
    intros H. injection H as <-. by exists items, first.
  - unfold item. destruct (items !! 0%nat) as [first|] eqn:E0;
      cbn [mbind result_mbind result_bind]; [|discriminate].
    destruct (items !! 1%nat) as [second|];
      cbn [mbind result_mbind result_bind]; [|discriminate].
    intros H. injection H as <-. by exists items, first.
Qed.

(** Reading a test list and fetching its [i]-th sample: the path that
    [__getitem__] hands to the transforms, and returns with the image, is
    the first field of the [i]-th line joined to the dataset root; the
    label path plays no part.  The fields are those of the line stripped of
    its white space, NEL and no-break space included. *)
Theorem dataset_test_sample tr root nc mode_ tp vp testp sep ii ed ds :
  lower mode_ = "test" ->
  init_ tr root nc mode_ tp vp testp sep ii ed = Ok ds ->
  exists c lines,
    reaches tr root mode_ tp vp testp c lines /\
    forall (i : nat) line, lines !! i = Some line ->
      exists items first,
        split (strip line) sep = Ok items /\ items !! 0%nat = Some first /\
        getitem_ ds (Z.of_nat i)
          = match call_transforms c (path_join root first) None with
            | Ok r => Ok (TestItem (im_newaxis (fst r)) (path_join root first))
            | Raise e => Raise e
            end.
Proof.
  intros Hmode Hds.
  destruct (init_ok_inv _ _ _ _ _ _ _ _ _ _ _ _ _ _ Hds)
    as (c & lines & Hreach & _ & Hlist & _ & Htr & Hm & _).
  exists c, lines. split; [exact Hreach|]. intros i line Hi.
  destruct (read_file_list_ok_inv _ _ _ _ _ _ Hlist) as (entries & He & Hall).
  simpl in He.
  destruct (Forall2_lookup_l _ _ _ _ _ Hall Hi) as (e & Hei & Hparse).
  destruct (parse_line_image _ _ _ _ _ Hparse) as (items & first & Hs & Hf & Hfst).
  exists items, first. split; [exact Hs|]. split; [exact Hf|].
  unfold getitem. rewrite He, (py_index_nat entries i e Hei).
  cbn [mbind result_mbind result_bind]. destruct e as [image_path label_path].
  simpl in Hfst. subst image_path. rewrite Hm, Hmode, Htr. simpl.
  destruct (call_transforms c (path_join root first) None); reflexivity.
Qed.

(** Reading a val list and fetching its [i]-th sample: the transforms get
    the first field of the [i]-th line joined to the root, and the label is
    opened from a path that is always there, the second field joined to
    the root.  The fields are those of the line stripped of its white
    space, NEL and no-break space included. *)
Theorem dataset_val_sample tr root nc mode_ tp vp testp sep ii ed ds :
  lower mode_ = "val" ->
  init_ tr root nc mode_ tp vp testp sep ii ed = Ok ds ->
  exists c lines,
    reaches tr root mode_ tp vp testp c lines /\
    forall (i : nat) line, lines !! i = Some line ->
      exists a b,
        split (strip line) sep = Ok [a; b] /\
        getitem_ ds (Z.of_nat i)
          = match call_transforms c (path_join root a) None with
            | Ok r =>
                match open_label (Some (path_join root b)) with
                | Ok label => Ok (ValItem (fst r) (lbl_newaxis label))
                | Raise e => Raise e
                end
            | Raise e => Raise e
            end.
Proof.
  intros Hmode Hds.
  destruct (init_ok_inv _ _ _ _ _ _ _ _ _ _ _ _ _ _ Hds)
    as (c & lines & Hreach & _ & Hlist & _ & Htr & Hm & _).
  exists c, lines. split; [exact Hreach|]. intros i line Hi.
  destruct (read_file_list_ok_inv _ _ _ _ _ _ Hlist) as (entries & He & Hall).
  simpl in He.
  destruct (Forall2_lookup_l _ _ _ _ _ Hall Hi) as (e & Hei & Hparse).
  destruct (parse_line_train_val_ok root sep (lower mode_) line e)
    as (a & b & Hs & ->); [|exact Hparse|].
  { rewrite Hmode. apply list_elem_of_further, list_elem_of_here. }
  exists a, b. split; [exact Hs|].
  unfold getitem. rewrite He, (py_index_nat entries i _ Hei).
  cbn [mbind result_mbind result_bind]. rewrite Hm, Hmode, Htr. simpl.
  destruct (call_transforms c (path_join root a) None); [|reflexivity].
  cbn [mbind result_mbind result_bind].
  destruct (open_label (Some (path_join root b))); reflexivity.
Qed.

End DatasetItems.

Lemma demo_test_dataset :
  exists ds,
    Dataset.Demo.run 0%nat "data" 2%Z "TEST" None None (Some "data/test.txt")
      " " 255%Z false = Ok ds.
Proof. eexists. vm_compute. reflexivity. Defined.

Lemma dataset_test_sample_witness :
  exists ds,
    Dataset.Demo.run 0%nat "data" 2%Z "TEST" None None (Some "data/test.txt")
      " " 255%Z false = Ok ds /\
    Dataset.DemoItems.fetch ds 1%Z
      = Ok (Dataset.TestItem "data/b.jpg" "data/b.jpg").
Proof.
  destruct demo_test_dataset as [ds Hds]. exists ds. split; [exact Hds|].
  destruct (dataset_test_sample Dataset.Demo.Compose Dataset.Demo.path_exists
              Dataset.Demo.read_lines Dataset.DemoItems.call_transforms
              (fun im => im) Dataset.DemoItems.open_label (fun l => l)
              Dataset.DemoItems.mask_to_binary_edge
              0%nat "data" 2%Z "TEST" None None (Some "data/test.txt") " "
              255%Z false ds eq_refl Hds)
    as (c & lines & (HC & _ & p & Hsel & _ & Hread) & H).
  vm_compute in Hsel. injection Hsel as <-.
  vm_compute in Hread. injection Hread as <-.
  destruct (H 1%nat "b.jpg" eq_refl) as (items & first & Hs & Hf & Hget).
  vm_compute in Hs. injection Hs as <-. injection Hf as <-.
  exact Hget.
Defined.

Lemma demo_val_dataset :
  exists ds,
    Dataset.Demo2.run 0%nat "data" 2%Z "val" None (Some "data/val.txt") None
      " " 255%Z false = Ok ds.
Proof. eexists. vm_compute. reflexivity. Defined.

Lemma dataset_val_sample_witness :
  exists ds,
    Dataset.Demo2.run 0%nat "data" 2%Z "val" None (Some "data/val.txt") None
      " " 255%Z false = Ok ds /\
    Dataset.DemoItems.fetch ds 1%Z
      = Ok (Dataset.ValItem "data/b.jpg" "data/b.png").
Proof.
  destruct demo_val_dataset as [ds Hds]. exists ds. split; [exact Hds|].
  destruct (dataset_val_sample Dataset.Demo2.Compose Dataset.Demo2.path_exists
              Dataset.Demo2.read_lines Dataset.DemoItems.call_transforms
              (fun im => im) Dataset.DemoItems.open_label (fun l => l)
              Dataset.DemoItems.mask_to_binary_edge
              0%nat "data" 2%Z "val" None (Some "data/val.txt") None " "
              255%Z false ds eq_refl Hds)
    as (c & lines & (HC & _ & p & Hsel & _ & Hread) & H).
  vm_compute in Hsel. injection Hsel as <-.
  vm_compute in Hread. injection Hread as <-.
  destruct (H 1%nat _ eq_refl) as (a & b & Hs & Hget).
  vm_compute in Hs. injection Hs as <- <-.
  exact Hget.
Defined.
